(** * Transit route viewer: route registry, GeoJSON conversion, reprojection

    A shallow embedding of the TypeScript sources

    - [src/types/route.ts]            the [Route] record,
    - [src/services/RoutesManager.ts] the in-memory route registry,
    - [src/utils/geoTransform.ts]     EPSG:3347 to WGS84 reprojection of
                                      boundary polygons,
    - [src/utils/geoJsonUtils.ts]     fetching and normalising route GeoJSON
                                      (the module [useRoutes] imports),
    - [src/Map.tsx]                   the choice of the map style URL,

    followed by the properties proved about them.

    Modelling conventions.  A JavaScript [number] is an IEEE 754 binary64
    value, i.e. Rocq's primitive [float]; comparisons are the IEEE ones, so
    every comparison with NaN is false.  Objects whose shape is declared by
    a TypeScript interface are records; a field that may be missing (or
    [undefined]) is an [option].  Values the code inspects at run time
    ([Array.isArray], [typeof], [=== 'Polygon']) are dynamically typed
    [JsValue]s.  A function that can throw returns a [Completion]; a method
    of the registry is a function from the registry's state to a completion
    and the state it leaves behind, so that the state after a throw is part
    of the model.  A rejected promise is a throw.  Console output is not
    modelled.  The projection library, [fetch] and [Number::toString] are
    parameters. *)

From Stdlib Require Import Floats.
From stdpp Require Import gmap strings list fin_maps.

Set Warnings "-register-all,-inexact-float".

Set Default Proof Using "Type".
Local Open Scope string_scope.

(* ===================================================================== *)
(** * JavaScript values and completions                                   *)
(* ===================================================================== *)

Module Js.

Abbreviation number := float.

Inductive JsValue : Type :=
  | JUndefined
  | JNull
  | JBool (b : bool)
  | JNum (x : number)
  | JStr (s : string)
  | JArr (elements : list JsValue)
  | JObj (members : gmap string JsValue).

(** What a [throw] carries: the class of the error object and its message. *)
Inductive Thrown : Type :=
  | Error (message : string)
  | TypeError (message : string)
  | SyntaxError (message : string).

Inductive Completion (A : Type) : Type :=
  | Normal (a : A)
  | Throw (e : Thrown).
Arguments Normal {A} a.
Arguments Throw {A} e.

Definition bind {A B} (c : Completion A) (k : A → Completion B) : Completion B :=
  match c with
  | Normal a => k a
  | Throw e => Throw e
  end.

(** [try { body } catch (error) { handler error }] *)
Definition try_catch {A} (body : Completion A) (handler : Thrown → Completion A)
  : Completion A :=
  match body with
  | Normal a => Normal a
  | Throw e => handler e
  end.

Definition throws {A} (c : Completion A) : Prop := ∃ e, c = Throw e.

(** [Array.prototype.map] with a callback that may throw: the first throw
    aborts the traversal. *)
Fixpoint mapM {A B} (f : A → Completion B) (l : list A) : Completion (list B) :=
  match l with
  | [] => Normal []
  | a :: l' =>
      bind (f a) (λ b, bind (mapM f l') (λ bs, Normal (b :: bs)))
  end.

(** [for (const x of l) { body x }] with a body that may throw. *)
Fixpoint forOf {A} (body : A → Completion unit) (l : list A) : Completion unit :=
  match l with
  | [] => Normal tt
  | a :: l' => bind (body a) (λ _, forOf body l')
  end.

(** The double-quote character, for messages built by template literals. *)
Definition dquote : string := String (Ascii.ascii_of_nat 34) EmptyString.

(** ToBoolean on the primitive types the sources test with [!] and [||]. *)
Definition string_truthy (s : string) : bool := negb (String.eqb s "").
Definition number_truthy (x : number) : bool :=
  negb (PrimFloat.eqb x 0%float || PrimFloat.is_nan x).

Definition toBoolean (v : JsValue) : bool :=
  match v with
  | JUndefined | JNull => false
  | JBool b => b
  | JNum x => number_truthy x
  | JStr s => string_truthy s
  | JArr _ | JObj _ => true
  end.

(** An optional field read as a value: a missing field reads [undefined]. *)
Definition opt_value {A} (inj : A → JsValue) (o : option A) : JsValue :=
  match o with
  | Some a => inj a
  | None => JUndefined
  end.

(** [Array.prototype.filter] with a callback that may throw: the first
    throw aborts the traversal. *)
Fixpoint filterM {A} (f : A → Completion bool) (l : list A) : Completion (list A) :=
  match l with
  | [] => Normal []
  | a :: l' =>
      bind (f a) (λ keep,
        bind (filterM f l') (λ kept, Normal (if keep then a :: kept else kept)))
  end.

(** [s.includes(t)]: [t] occurs in [s] as a contiguous run of characters. *)
Fixpoint includes (s t : string) : bool :=
  String.prefix t s
  || match s with
     | EmptyString => false
     | String _ s' => includes s' t
     end.

End Js.
Import Js.

(* ===================================================================== *)
(** * The insertion-ordered [Map<string, V>] of JavaScript                *)
(* ===================================================================== *)

(** A JavaScript [Map] iterates in insertion order, and [set] on a key that
    is present keeps the key's position; an association list with one entry
    per key has exactly this behaviour. *)
Module JsMap.
Abbreviation t V := (list (string * V)).

Section Ops.
Context {V : Type}.
Local Abbreviation t := (t V).

Definition empty : t := [].

Fixpoint get (k : string) (m : t) : option V :=
  match m with
  | [] => None
  | (k', v) :: m' => if String.eqb k k' then Some v else get k m'
  end.

Definition has (k : string) (m : t) : bool :=
  match get k m with
  | Some _ => true
  | None => false
  end.

Fixpoint set (k : string) (v : V) (m : t) : t :=
  match m with
  | [] => [(k, v)]
  | (k', v') :: m' =>
      if String.eqb k k' then (k, v) :: m' else (k', v') :: set k v m'
  end.

(** [delete] removes the entry of [k]; its boolean result is [has k m]. *)
Fixpoint delete (k : string) (m : t) : t :=
  match m with
  | [] => []
  | (k', v') :: m' =>
      if String.eqb k k' then delete k m' else (k', v') :: delete k m'
  end.

Definition keys (m : t) : list string := m.*1.
Definition values (m : t) : list V := m.*2.
Definition size (m : t) : nat := length m.
End Ops.
End JsMap.

(* ===================================================================== *)
(** * src/types/route.ts                                                  *)
(* ===================================================================== *)

(** [interface Route].  [coordinates] is declared [number[][]]; since
    [validateRoute] tests for a missing list and inspects every element at
    run time, the list is optional and its elements are [JsValue]s.
    [name] is declared mandatory, but the object spread of [updateRoute]
    can leave it [undefined], so it is optional here as well. *)
Record Route : Type := mkRoute {
  id : string;
  name : option string;
  coordinates : option (list JsValue);
  color : option string;
  lineWidth : option number;
  properties : option (gmap string JsValue)
}.

(** [Partial<Omit<Route, 'id'>>]: for each field, [None] when the updates
    object does not name it, [Some v] when it does; [v] itself may be
    [None], the value [undefined]. *)
Record RouteUpdates : Type := mkRouteUpdates {
  u_name : option (option string);
  u_coordinates : option (option (list JsValue));
  u_color : option (option string);
  u_lineWidth : option (option number);
  u_properties : option (option (gmap string JsValue))
}.

(** The updates object [{}], which names no field. *)
Definition noUpdates : RouteUpdates :=
  {| u_name := None; u_coordinates := None; u_color := None;
     u_lineWidth := None; u_properties := None |}.

(* ===================================================================== *)
(** * GeoJSON objects (the [geojson] type declarations)                   *)
(* ===================================================================== *)

(** A geometry object: its [type] tag, its [coordinates] (whose nesting
    depends on the tag, hence a [JsValue]) and every other member. *)
Record Geometry : Type := mkGeometry {
  g_type : string;
  g_coordinates : JsValue;
  g_members : gmap string JsValue
}.

(** A feature: [type], [geometry], [properties] (an object or [null]) and
    every other member ([id], [bbox], foreign members).  The geometry is an
    object, as [Feature<Polygon>] and [Feature<LineString>] declare it. *)
Record Feature : Type := mkFeature {
  f_type : string;
  f_geometry : Geometry;
  f_properties : option (gmap string JsValue);
  f_members : gmap string JsValue
}.

Record FeatureCollection : Type := mkFeatureCollection {
  fc_type : string;
  fc_features : list Feature;
  fc_members : gmap string JsValue
}.

(* ===================================================================== *)
(** * src/services/RoutesManager.ts                                       *)
(* ===================================================================== *)

Module RoutesManager.

(** The private field [routes : Map<string, Route>]. *)
Abbreviation Registry := (JsMap.t Route).

(** A method: it runs on the registry, completes normally or throws, and
    leaves a registry behind in both cases. *)
Definition Method (A : Type) : Type := Registry → Completion A * Registry.

Definition ret {A} (a : A) : Method A := λ routes, (Normal a, routes).
Definition throw {A} (e : Thrown) : Method A := λ routes, (Throw e, routes).
Definition bindM {A B} (m : Method A) (k : A → Method B) : Method B :=
  λ routes,
    match m routes with
    | (Normal a, routes') => k a routes'
    | (Throw e, routes') => (Throw e, routes')
    end.
Definition lift {A} (c : Completion A) : Method A := λ routes, (c, routes).

#[export] Instance method_ret : MRet Method := @ret.
#[export] Instance method_bind : MBind Method := λ A B k m, bindM m k.

(** [this.routes.has], [.get], [.set], [.delete], [.clear] as methods. *)
Definition routes_has (k : string) : Method bool :=
  λ routes, (Normal (JsMap.has k routes), routes).
Definition routes_get (k : string) : Method (option Route) :=
  λ routes, (Normal (JsMap.get k routes), routes).
Definition routes_set (k : string) (r : Route) : Method unit :=
  λ routes, (Normal tt, JsMap.set k r routes).
Definition routes_delete (k : string) : Method bool :=
  λ routes, (Normal (JsMap.has k routes), JsMap.delete k routes).
Definition routes_clear : Method unit :=
  λ _, (Normal tt, JsMap.empty).

(** The body of the loop of [validateRoute], lines 168 to 180. *)
Definition validateCoordinate (coord : JsValue) : Completion unit :=
  match coord with
  | JArr [lng; lat] =>
      (* Array.isArray(coord) && coord.length === 2; const [lng, lat] = coord *)
      match lng, lat with
      | JNum lng, JNum lat =>
          if PrimFloat.ltb lng (-180)%float || PrimFloat.ltb 180%float lng then
            Throw (Error "Longitude must be between -180 and 180")
          else if PrimFloat.ltb lat (-90)%float || PrimFloat.ltb 90%float lat then
            Throw (Error "Latitude must be between -90 and 90")
          else Normal tt
      | _, _ => Throw (Error "Coordinates must be numbers")
      end
  | _ => Throw (Error "Each coordinate must be [longitude, latitude]")
  end.

(** [private validateRoute(route: Route): void] *)
Definition validateRoute (route : Route) : Completion unit :=
  match coordinates route with
  | None => Throw (Error "Route must have at least 2 coordinates")
  | Some coords =>
      if Nat.ltb (List.length coords) 2 then
        Throw (Error "Route must have at least 2 coordinates")
      else forOf validateCoordinate coords
  end.

(** [addRoute(route: Route): void] *)
Definition addRoute (route : Route) : Method unit :=
  if negb (string_truthy (id route)) then
    throw (Error "Route must have an id")
  else
    present ← routes_has (id route);
    if (present : bool) then
      throw (Error ("Route with id " +:+ dquote +:+ id route +:+ dquote
                      +:+ " already exists"))
    else
      lift (validateRoute route);;
      routes_set (id route) route.

(** [addRoutes(routes: Route[]): void] *)
Fixpoint addRoutes (routes : list Route) : Method unit :=
  match routes with
  | [] => ret tt
  | route :: rest => addRoute route;; addRoutes rest
  end.

(** [constructor(initialRoutes: Route[] = [])]: the registry of the new
    object when construction succeeds; when it throws no object exists. *)
Definition constructor (initialRoutes : list Route) : Completion unit * Registry :=
  addRoutes initialRoutes JsMap.empty.

(** The object literal [{ ...existingRoute, ...updates, id }]. *)
Definition spread {A} (existing : A) (update : option A) : A :=
  match update with
  | Some v => v
  | None => existing
  end.

Definition mergeRoute (existingRoute : Route) (updates : RouteUpdates) (i : string)
  : Route :=
  {| id := i;
     name := spread (name existingRoute) (u_name updates);
     coordinates := spread (coordinates existingRoute) (u_coordinates updates);
     color := spread (color existingRoute) (u_color updates);
     lineWidth := spread (lineWidth existingRoute) (u_lineWidth updates);
     properties := spread (properties existingRoute) (u_properties updates) |}.

(** [updateRoute(id: string, updates: Partial<Omit<Route, 'id'>>): void] *)
Definition updateRoute (i : string) (updates : RouteUpdates) : Method unit :=
  existing ← routes_get i;
  match existing with
  | None =>
      throw (Error ("Route with id " +:+ dquote +:+ i +:+ dquote +:+ " not found"))
  | Some existingRoute =>
      let updatedRoute := mergeRoute existingRoute updates i in
      lift (validateRoute updatedRoute);;
      routes_set i updatedRoute
  end.

(** [removeRoute(id: string): boolean] *)
Definition removeRoute (i : string) : Method bool := routes_delete i.

(** [removeRoutes(ids: string[]): void] *)
Fixpoint removeRoutes (ids : list string) : Method unit :=
  match ids with
  | [] => ret tt
  | i :: rest => routes_delete i;; removeRoutes rest
  end.

(** [getRoute], [getAllRoutes], [clearAll], [getRouteCount], [hasRoute] *)
Definition getRoute (i : string) : Method (option Route) := routes_get i.
Definition getAllRoutes : Method (list Route) :=
  λ routes, (Normal (JsMap.values routes), routes).
Definition clearAll : Method unit := routes_clear.
Definition getRouteCount : Method nat :=
  λ routes, (Normal (JsMap.size routes), routes).
Definition hasRoute (i : string) : Method bool := routes_has i.

(** [route.color || '#FF0000'] and [route.lineWidth || 4] *)
Definition colorOrDefault (c : option string) : string :=
  match c with
  | Some s => if string_truthy s then s else "#FF0000"
  | None => "#FF0000"
  end.

Definition lineWidthOrDefault (w : option number) : number :=
  match w with
  | Some x => if number_truthy x then x else 4%float
  | None => 4%float
  end.

(** The callback of [toGeoJSON]: the feature built for one route.  In the
    [properties] literal the spread of [route.properties] comes last, so
    its members override the four named ones; in stdpp's left-biased
    union the overriding map is the left operand. *)
Definition routeFeature (route : Route) : Feature :=
  {| f_type := "Feature";
     f_geometry :=
       {| g_type := "LineString";
          g_coordinates := opt_value JArr (coordinates route);
          g_members := ∅ |};
     f_properties :=
       Some (default ∅ (properties route) ∪
             <["id" := JStr (id route)]>
             (<["name" := opt_value JStr (name route)]>
             (<["color" := JStr (colorOrDefault (color route))]>
             (<["lineWidth" := JNum (lineWidthOrDefault (lineWidth route))]> ∅))));
     f_members := ∅ |}.

(** [toGeoJSON(): FeatureCollection<LineString>] *)
Definition toGeoJSON : Method FeatureCollection :=
  allRoutes ← getAllRoutes;
  ret {| fc_type := "FeatureCollection";
         fc_features := routeFeature <$> allRoutes;
         fc_members := ∅ |}.

Section Queries.

(** [String.prototype.toLowerCase] and [toUpperCase], whose case mappings
    are those of the Unicode tables of the runtime. *)
Variable toLowerCase toUpperCase : string → string.

(** [getRoutesByName(searchTerm: string): Route[]]; reading [toLowerCase]
    off a route without a name throws a [TypeError]. *)
Definition getRoutesByName (searchTerm : string) : Method (list Route) :=
  let lowerSearch := toLowerCase searchTerm in
  allRoutes ← getAllRoutes;
  lift (filterM
          (λ route,
             match name route with
             | Some routeName =>
                 Normal (includes (toLowerCase routeName) lowerSearch)
             | None =>
                 Throw (TypeError
                   "Cannot read properties of undefined (reading 'toLowerCase')")
             end)
          allRoutes).

(** [getRoutesByColor(color: string): Route[]] *)
Definition getRoutesByColor (wanted : string) : Method (list Route) :=
  allRoutes ← getAllRoutes;
  ret (List.filter
         (λ route,
            String.eqb (toUpperCase (colorOrDefault (color route)))
                       (toUpperCase wanted))
         allRoutes).

End Queries.

End RoutesManager.

(* ===================================================================== *)
(** * The [fetch] API                                                     *)
(* ===================================================================== *)

(** The part of a [Response] the sources read.  [body] is what
    [response.json()] resolves to, typed by the cast at the call site;
    [None] stands for a body that is not JSON, on which [json()] rejects
    with a [SyntaxError]. *)
Record Response (T : Type) : Type := mkResponse {
  ok : bool;
  statusText : string;
  body : option T
}.
Arguments mkResponse {T} ok statusText body.
Arguments ok {T} r.
Arguments statusText {T} r.
Arguments body {T} r.

Definition json {T} (response : Response T) : Completion T :=
  match body response with
  | Some v => Normal v
  | None => Throw (SyntaxError "Unexpected token in JSON")
  end.

(* ===================================================================== *)
(** * src/utils/geoTransform.ts                                           *)
(* ===================================================================== *)

Module GeoTransform.
Section WithRuntime.

(** [proj4('EPSG:3347', 'EPSG:4326', [x, y])]: the projection library,
    which returns a pair of numbers or throws. *)
Variable proj4 : number → number → Completion (number * number).

(** [Number::toString], used by the template literals of the error
    messages. *)
Variable numberToString : number → string.

(** [fetch(url)], which resolves to a response or rejects. *)
Variable fetch : string → Completion (Response FeatureCollection).

(** ToString of a value inside a template literal. *)
Fixpoint toString (v : JsValue) : string :=
  match v with
  | JUndefined => "undefined"
  | JNull => "null"
  | JBool b => if b then "true" else "false"
  | JNum x => numberToString x
  | JStr s => s
  | JArr l =>
      (fix join (l : list JsValue) : string :=
         match l with
         | [] => ""
         | v :: l' =>
             let s := match v with
                      | JUndefined | JNull => ""
                      | _ => toString v
                      end in
             match l' with
             | [] => s
             | _ :: _ => s +:+ "," +:+ join l'
             end
         end) l
  | JObj _ => "[object Object]"
  end.

(** The values an iterable yields ([const [x, y] = v]); a value that is
    not iterable throws a [TypeError]. *)
Definition iterate (v : JsValue) : Completion (list JsValue) :=
  match v with
  | JArr l => Normal l
  | JStr s => Normal ((λ c, JStr (String c EmptyString)) <$> String.list_ascii_of_string s)
  | _ => Throw (TypeError (toString v +:+ " is not iterable"))
  end.

(** [v.map(f)]: defined on arrays, a [TypeError] on anything else. *)
Definition arrayMap (f : JsValue → Completion JsValue) (v : JsValue)
  : Completion JsValue :=
  match v with
  | JArr l => bind (mapM f l) (λ l', Normal (JArr l'))
  | JUndefined | JNull =>
      Throw (TypeError "Cannot read properties of undefined (reading 'map')")
  | _ => Throw (TypeError "coordinates.map is not a function")
  end.

(** [v[0]]: a [TypeError] on [undefined] and [null], the first element
    of an array or string, the member ["0"] of an object. *)
Definition index0 (v : JsValue) : Completion JsValue :=
  match v with
  | JUndefined | JNull =>
      Throw (TypeError "Cannot read properties of undefined (reading '0')")
  | JArr l => Normal (default JUndefined (head l))
  | JStr s =>
      Normal (match s with
              | EmptyString => JUndefined
              | String c _ => JStr (String c EmptyString)
              end)
  | JObj m => Normal (default JUndefined (m !! "0"))
  | JBool _ | JNum _ => Normal JUndefined
  end.

(** [transformCoordinates3347To4326(coordinates: number[]): [number, number]] *)
Definition transformCoordinates3347To4326 (coordinates : JsValue)
  : Completion JsValue :=
  try_catch
    (bind (iterate coordinates) (λ elements,
       let x := default JUndefined (elements !! 0%nat) in
       let y := default JUndefined (elements !! 1%nat) in
       match x, y with
       | JNum xn, JNum yn =>
           if PrimFloat.is_nan xn || PrimFloat.is_nan yn then
             Throw (Error ("Invalid coordinates: [" +:+ toString x +:+ ", "
                             +:+ toString y +:+ "]"))
           else
             bind (proj4 xn yn) (λ '(longitude, latitude),
               if PrimFloat.is_nan longitude || PrimFloat.is_nan latitude then
                 Throw (Error ("Transformation failed for coordinates: ["
                                 +:+ toString x +:+ ", " +:+ toString y +:+ "]"))
               else Normal (JArr [JNum longitude; JNum latitude]))
       | _, _ =>
           Throw (Error ("Invalid coordinates: [" +:+ toString x +:+ ", "
                           +:+ toString y +:+ "]"))
       end))
    (λ error, Throw error).

(** [transformCoordinateArray(coordinates: number[][]): number[][]] *)
Definition transformCoordinateArray (coordinates : JsValue) : Completion JsValue :=
  arrayMap transformCoordinates3347To4326 coordinates.

(** [transformPolygonCoordinates(coordinates: number[][][]): number[][][]] *)
Definition transformPolygonCoordinates (coordinates : JsValue) : Completion JsValue :=
  arrayMap transformCoordinateArray coordinates.

(** The callback given to [features.map] in [transformGeoJSON3347To4326];
    [None] is the [null] it returns from its [catch] block. *)
Definition transformFeature (feature : Feature) : Completion (option Feature) :=
  try_catch
    (if String.eqb (g_type (f_geometry feature)) "Polygon" then
       bind (transformPolygonCoordinates (g_coordinates (f_geometry feature)))
         (λ transformedCoordinates,
            Normal (Some
              {| f_type := f_type feature;
                 f_geometry :=
                   {| g_type := g_type (f_geometry feature);
                      g_coordinates := transformedCoordinates;
                      g_members := g_members (f_geometry feature) |};
                 f_properties := f_properties feature;
                 f_members := f_members feature |}))
     else Normal (Some feature))
    (λ _, Normal None).

(** [.filter((f) => f !== null)] *)
Definition filterNotNull {A} (l : list (option A)) : list A := omap (λ f, f) l.

(** [transformGeoJSON3347To4326(geoJSON)]; console output is not modelled. *)
Definition transformGeoJSON3347To4326 (geoJSON : FeatureCollection)
  : Completion FeatureCollection :=
  bind (mapM transformFeature (fc_features geoJSON)) (λ mapped,
    let transformedFeatures := filterNotNull mapped in
    Normal {| fc_type := fc_type geoJSON;
              fc_features := transformedFeatures;
              fc_members := fc_members geoJSON |}).

(** The two debugging blocks of [loadOttawaDABoundaries]: when the first
    feature is a polygon they evaluate [coordinates[0][0]], which throws
    when [coordinates[0]] is [undefined]. *)
Definition peekFirstCoordinate (collection : FeatureCollection) : Completion unit :=
  match fc_features collection with
  | first :: _ =>
      if String.eqb (g_type (f_geometry first)) "Polygon" then
        bind (index0 (g_coordinates (f_geometry first))) (λ ring,
          bind (index0 ring) (λ _, Normal tt))
      else Normal tt
  | [] => Normal tt
  end.

(** [loadOttawaDABoundaries(): Promise<FeatureCollection<Polygon>>]; a
    rejected promise is a [Throw]. *)
Definition loadOttawaDABoundaries : Completion FeatureCollection :=
  bind (fetch "/ottawa_da_boundaries.geojson") (λ response,
    if negb (ok response) then
      Throw (Error ("Failed to load DA boundaries: " +:+ statusText response))
    else
      bind (json response) (λ geoJSON,
      bind (peekFirstCoordinate geoJSON) (λ _,
      bind (transformGeoJSON3347To4326 geoJSON) (λ transformed,
      bind (peekFirstCoordinate transformed) (λ _,
      Normal transformed))))).

End WithRuntime.
End GeoTransform.

(* ===================================================================== *)
(** * src/utils/geoJsonUtils.ts                                           *)
(* ===================================================================== *)

Module GeoJsonUtils.
Section WithRuntime.

Variable fetch : string → Completion (Response FeatureCollection).

(** The callback of [normalizeGeoJSON]: [feature.properties || {}], then
    the two defaults, then [{ ...feature, properties }].  The source writes
    the defaults into the properties object of the input feature when there
    is one; the model returns the resulting feature only. *)
Definition normalizeFeature (defaultColor : string) (defaultLineWidth : number)
    (feature : Feature) : Feature :=
  let properties := default ∅ (f_properties feature) in
  let properties :=
    if negb (toBoolean (default JUndefined (properties !! "color")))
    then <["color" := JStr defaultColor]> properties else properties in
  let properties :=
    if negb (toBoolean (default JUndefined (properties !! "lineWidth")))
    then <["lineWidth" := JNum defaultLineWidth]> properties else properties in
  {| f_type := f_type feature;
     f_geometry := f_geometry feature;
     f_properties := Some properties;
     f_members := f_members feature |}.

(** [normalizeGeoJSON(geoJSON, defaultColor = '#FF0000', defaultLineWidth = 4)];
    an omitted argument is [None]. *)
Definition normalizeGeoJSON (geoJSON : FeatureCollection)
    (defaultColor : option string) (defaultLineWidth : option number)
  : FeatureCollection :=
  let defaultColor := default "#FF0000" defaultColor in
  let defaultLineWidth := default 4%float defaultLineWidth in
  {| fc_type := "FeatureCollection";
     fc_features :=
       normalizeFeature defaultColor defaultLineWidth <$> fc_features geoJSON;
     fc_members := ∅ |}.

(** [fetchGeoJSON(url, defaultColor = '#FF0000', defaultLineWidth = 4)] *)
Definition fetchGeoJSON (url : string)
    (defaultColor : option string) (defaultLineWidth : option number)
  : Completion FeatureCollection :=
  bind (fetch url) (λ response,
    if negb (ok response) then
      Throw (Error ("Failed to fetch GeoJSON: " +:+ statusText response))
    else
      bind (json response) (λ geoJSON,
        if negb (String.eqb (fc_type geoJSON) "FeatureCollection") then
          Throw (Error "Invalid GeoJSON: Expected FeatureCollection")
        else Normal (normalizeGeoJSON geoJSON defaultColor defaultLineWidth))).

End WithRuntime.
End GeoJsonUtils.

(* ===================================================================== *)
(** * src/Map.tsx                                                         *)
(* ===================================================================== *)

Module MapView.

(** The options object given to [new maplibregl.Map]; [container] is the
    DOM element and is left out. *)
Record MapOptions : Type := mkMapOptions {
  style : string;
  center : number * number;
  zoom : number
}.

Definition DEFAULT_CENTER : number * number := ((-75.6972)%float, 45.4215%float).
Definition DEFAULT_ZOOM : number := 11%float.
Definition defaultStyle : string := "https://tiles.openfreemap.org/styles/bright".

(** What the mount effect does: the warnings it logs and the options the
    map is constructed with, or [None] when it returns early because the
    map exists already or the container is missing.  [styleUrl] is
    [import.meta.env.VITE_MAP_STYLE_URL], [None] when the variable is
    unset. *)
Definition createMap (mapExists containerMounted : bool) (styleUrl : option string)
  : option (list string * MapOptions) :=
  if mapExists || negb containerMounted then None
  else
    let warnings :=
      if negb (toBoolean (opt_value JStr styleUrl))
      then ["VITE_MAP_STYLE_URL is not set. Using default style: " +:+ defaultStyle]
      else [] in
    Some (warnings,
          {| style := default defaultStyle styleUrl;   (* styleUrl ?? defaultStyle *)
             center := DEFAULT_CENTER;
             zoom := DEFAULT_ZOOM |}).

(** ** The imperative handle ([useImperativeHandle], [MapRef]) *)

(** [EMPTY_ROUTES] *)
Definition EMPTY_ROUTES : FeatureCollection :=
  {| fc_type := "FeatureCollection"; fc_features := []; fc_members := ∅ |}.

(** Deferred work of [updateRoutes]: the callbacks it hands to [setTimeout]
    and to [map.once('load', ...)], each closed over its [geoJSON]. *)
Inductive Task : Type :=
  | TryUpdate (geoJSON : FeatureCollection)
      (* () => tryUpdate() *)
  | TryUpdateElseListen (geoJSON : FeatureCollection)
      (* () => { if (!tryUpdate()) mapRef.current?.once('load', ...) } *)
  | DeferTryUpdate (geoJSON : FeatureCollection).
      (* the 'load' listener: () => { setTimeout(() => tryUpdate(), 50) } *)

(** What the component reads of the map object: the data of its ['routes']
    source ([None] while the source has not been added), whether its style
    is loaded, and the one-time ['load'] listeners registered on it. *)
Record MlMap : Type := mkMlMap {
  routesSource : option FeatureCollection;
  styleLoaded : bool;
  loadListeners : list Task
}.

(** The refs of the component and the timers it has started:
    [mapRef.current] ([None] for [null]), [isMapReadyRef.current], and the
    pending [setTimeout] callbacks with their delays in milliseconds. *)
Record Component : Type := mkComponent {
  mapRef : option MlMap;
  isMapReady : bool;
  timers : list (nat * Task)
}.

(** [source.setData(data)] on the ['routes'] source of the map. *)
Definition setData (data : FeatureCollection) (map : MlMap) : MlMap :=
  {| routesSource := Some data;
     styleLoaded := styleLoaded map;
     loadListeners := loadListeners map |}.

Definition withMap (map : MlMap) (c : Component) : Component :=
  {| mapRef := Some map; isMapReady := isMapReady c; timers := timers c |}.

(** [setTimeout(task, delay)] and [map.once('load', task)] *)
Definition setTimeout (task : Task) (delay : nat) (c : Component) : Component :=
  {| mapRef := mapRef c; isMapReady := isMapReady c;
     timers := timers c ++ [(delay, task)] |}.

Definition onceLoad (task : Task) (map : MlMap) : MlMap :=
  {| routesSource := routesSource map;
     styleLoaded := styleLoaded map;
     loadListeners := loadListeners map ++ [task] |}.

(** The feature [addRoute] builds from bare coordinates. *)
Definition legacyFeature (coordinates : list JsValue) : Feature :=
  {| f_type := "Feature";
     f_geometry :=
       {| g_type := "LineString";
          g_coordinates := JArr coordinates;
          g_members := ∅ |};
     f_properties :=
       Some (<["color" := JStr "#FF0000"]> (<["lineWidth" := JNum 4%float]> ∅));
     f_members := ∅ |}.

(** The feature [addRoutes] and [setRoutes] build for a route. *)
Definition routeFeature (route : Route) : Feature :=
  {| f_type := "Feature";
     f_geometry :=
       {| g_type := "LineString";
          g_coordinates := opt_value JArr (coordinates route);
          g_members := ∅ |};
     f_properties :=
       Some (default ∅ (properties route) ∪
             <["id" := JStr (id route)]>
             (<["name" := opt_value JStr (name route)]>
             (<["color" := JStr (RoutesManager.colorOrDefault (color route))]>
             (<["lineWidth" :=
                  JNum (RoutesManager.lineWidthOrDefault (lineWidth route))]> ∅))));
     f_members := ∅ |}.

(** [addRoute: (coordinates: number[][]) => void] *)
Definition addRoute (coordinates : list JsValue) (c : Component) : Component :=
  match mapRef c with
  | None => c
  | Some map =>
      match routesSource map with
      | Some currentData =>
          withMap
            (setData {| fc_type := "FeatureCollection";
                        fc_features :=
                          fc_features currentData ++ [legacyFeature coordinates];
                        fc_members := ∅ |} map) c
      | None => c
      end
  end.

(** [addRoutes: (routes: Route[]) => void] *)
Definition addRoutes (routes : list Route) (c : Component) : Component :=
  match mapRef c with
  | None => c
  | Some map =>
      match routesSource map with
      | Some currentData =>
          let newFeatures := routeFeature <$> routes in
          withMap
            (setData {| fc_type := "FeatureCollection";
                        fc_features := fc_features currentData ++ newFeatures;
                        fc_members := ∅ |} map) c
      | None => c
      end
  end.

(** [setRoutes: (routes: Route[]) => void] *)
Definition setRoutes (routes : list Route) (c : Component) : Component :=
  match mapRef c with
  | None => c
  | Some map =>
      match routesSource map with
      | Some _ =>
          let features := routeFeature <$> routes in
          withMap
            (setData {| fc_type := "FeatureCollection";
                        fc_features := features;
                        fc_members := ∅ |} map) c
      | None => c
      end
  end.

(** [clearRoutes: () => void] *)
Definition clearRoutes (c : Component) : Component :=
  match mapRef c with
  | None => c
  | Some map =>
      match routesSource map with
      | Some _ => withMap (setData EMPTY_ROUTES map) c
      | None => c
      end
  end.

(** The local function [tryUpdate] of [updateRoutes]: its result and the
    component it leaves. *)
Definition tryUpdate (geoJSON : FeatureCollection) (c : Component) : bool * Component :=
  match mapRef c with
  | None => (false, c)
  | Some map =>
      match routesSource map with
      | Some _ => (true, withMap (setData geoJSON map) c)
      | None => (false, c)
      end
  end.

(** [updateRoutes: (geoJSON: FeatureCollection<LineString>) => void] *)
Definition updateRoutes (geoJSON : FeatureCollection) (c : Component) : Component :=
  match mapRef c with
  | None => c
  | Some map =>
      if isMapReady c then
        let '(updated, c') := tryUpdate geoJSON c in
        if updated then c' else setTimeout (TryUpdate geoJSON) 50 c'
      else if negb (styleLoaded map) then
        withMap (onceLoad (DeferTryUpdate geoJSON) map) c
      else
        setTimeout (TryUpdateElseListen geoJSON) 100 c
  end.

(** Running a deferred callback. *)
Definition runTask (task : Task) (c : Component) : Component :=
  match task with
  | TryUpdate geoJSON => (tryUpdate geoJSON c).2
  | TryUpdateElseListen geoJSON =>
      let '(updated, c') := tryUpdate geoJSON c in
      if updated then c'
      else match mapRef c' with
           | Some map => withMap (onceLoad (DeferTryUpdate geoJSON) map) c'
           | None => c'
           end
  | DeferTryUpdate geoJSON => setTimeout (TryUpdate geoJSON) 50 c
  end.

End MapView.

(* ===================================================================== *)
(** * src/hooks/useRoutes.ts                                              *)
(* ===================================================================== *)

Module UseRoutes.
Section WithRuntime.

Variable fetch : string → Completion (Response FeatureCollection).

(** What the callbacks of the hook read and write: the registry behind
    [routesManagerRef.current], the handle behind [mapRef.current] ([None]
    while the map component is not mounted), and the [attemptSync]
    callbacks handed to [setTimeout], by their delays in milliseconds. *)
Record Hook : Type := mkHook {
  manager : RoutesManager.Registry;
  handle : option MapView.Component;
  syncTimers : list nat
}.

Definition Callback (A : Type) : Type := Hook → Completion A * Hook.

(** The callback [attemptSync] of [syncRoutesToMap], run when its timer
    fires. *)
Definition attemptSync : Callback unit :=
  λ h,
    match handle h with
    | None => (Normal tt, h)
    | Some map =>
        match RoutesManager.toGeoJSON (manager h) with
        | (Normal geoJSON, routes) =>
            (Normal tt,
             {| manager := routes;
                handle := Some (MapView.updateRoutes geoJSON map);
                syncTimers := syncTimers h |})
        | (Throw e, routes) =>
            (Throw e,
             {| manager := routes; handle := handle h; syncTimers := syncTimers h |})
        end
    end.

(** [syncRoutesToMap] *)
Definition syncRoutesToMap (h : Hook) : Hook :=
  match handle h with
  | None => h
  | Some _ =>
      {| manager := manager h; handle := handle h;
         syncTimers := syncTimers h ++ [100%nat] |}
  end.

(** A method of the registry called on [routesManagerRef.current],
    followed by [syncRoutesToMap()] when it has not thrown. *)
Definition mutate {A} (method : RoutesManager.Method A) : Callback unit :=
  λ h,
    match method (manager h) with
    | (Normal _, routes) =>
        (Normal tt,
         syncRoutesToMap
           {| manager := routes; handle := handle h; syncTimers := syncTimers h |})
    | (Throw e, routes) =>
        (Throw e,
         {| manager := routes; handle := handle h; syncTimers := syncTimers h |})
    end.

(** [addRoute], [addRoutes], [updateRoute], [removeRoute], [removeRoutes]
    and [clearAllRoutes] of the hook. *)
Definition addRoute (route : Route) : Callback unit :=
  mutate (RoutesManager.addRoute route).
Definition addRoutes (routes : list Route) : Callback unit :=
  mutate (RoutesManager.addRoutes routes).
Definition updateRoute (i : string) (updates : RouteUpdates) : Callback unit :=
  mutate (RoutesManager.updateRoute i updates).
Definition removeRoute (i : string) : Callback unit :=
  mutate (RoutesManager.removeRoute i).
Definition removeRoutes (ids : list string) : Callback unit :=
  mutate (RoutesManager.removeRoutes ids).
Definition clearAllRoutes : Callback unit :=
  mutate RoutesManager.clearAll.

(** [loadGeoJSONFromURL], an [async] function: it awaits [fetchGeoJSON]
    and rejects when that does; otherwise the rest of its body runs in the
    state of the hook at the time the promise resolves.  [None] is the
    [undefined] it resolves to when the map component is not mounted. *)
Definition loadGeoJSONFromURL (url : string)
    (defaultColor : option string) (defaultLineWidth : option number)
  : Completion (Callback (option FeatureCollection)) :=
  bind (GeoJsonUtils.fetchGeoJSON fetch url
          (Some (default "#FF0000" defaultColor))
          (Some (default 4%float defaultLineWidth)))
    (λ geoJSON,
       Normal (λ h,
         match handle h with
         | None => (Normal None, h)
         | Some map =>
             (Normal (Some geoJSON),
              {| manager := manager h;
                 handle := Some (MapView.updateRoutes geoJSON map);
                 syncTimers := syncTimers h |})
         end)).


End WithRuntime.
End UseRoutes.

(* ===================================================================== *)
(** * Vocabulary of the specification                                     *)
(* ===================================================================== *)



(** [x] is in [[lo, hi]]: [lo <= x <= hi]. *)
Definition within (lo hi x : number) : Prop :=
  PrimFloat.leb lo x = true ∧ PrimFloat.leb x hi = true.




(** A point that is a pair of a longitude in [[-180, 180]] and a latitude
    in [[-90, 90]]. *)
Definition valid_point (p : JsValue) : Prop :=
  ∃ lng lat, p = JArr [JNum lng; JNum lat]
             ∧ within (-180)%float 180%float lng
             ∧ within (-90)%float 90%float lat.

(** A route that satisfies the coordinate validation of the specification:
    at least two points, each a valid point. *)
Definition valid_coordinates (route : Route) : Prop :=
  ∃ coords, coordinates route = Some coords
            ∧ (2 ≤ List.length coords)%nat
            ∧ Forall valid_point coords.

(** The invariant of the specification: every stored route is keyed by its
    own id and satisfies the coordinate validation. *)
Definition keyed_and_valid (routes : RoutesManager.Registry) : Prop :=
  ∀ k route, (k, route) ∈ routes → id route = k ∧ valid_coordinates route.

(** What the registry does maintain: every stored route is keyed by its own
    id and is one that [validateRoute] lets through, and no id is stored
    twice. *)
Definition keyed_and_validated (routes : RoutesManager.Registry) : Prop :=
  NoDup (JsMap.keys routes)
  ∧ ∀ k route, (k, route) ∈ routes →
      id route = k ∧ RoutesManager.validateRoute route = Normal tt.

(** A field after an update: the value the updates object gives it when it
    names the field, the old value when it does not. *)
Definition follows {A} (update : option A) (old new : A) : Prop :=
  (∀ v, update = Some v → new = v) ∧ (update = None → new = old).

(** [message] contains [s]. *)
Definition contains (message s : string) : Prop :=
  ∃ before after, message = before +:+ s +:+ after.

(** The properties object of the feature built for [route]: the members of
    [route.properties] as they are; and [id], [name], [color], [lineWidth]
    of the route, each unless [route.properties] has a member of that name;
    a missing or empty color reads ['#FF0000'], a missing line width and
    the line widths 0 and NaN read [4]; and nothing else. *)
Definition feature_properties_of (route : Route) (props : gmap string JsValue) : Prop :=
  let own := default ∅ (properties route) in
  (∀ key v, own !! key = Some v → props !! key = Some v)
  ∧ (own !! "id" = None → props !! "id" = Some (JStr (id route)))
  ∧ (own !! "name" = None → props !! "name" = Some (opt_value JStr (name route)))
  ∧ (own !! "color" = None →
       (∀ c, color route = Some c → c ≠ "" → props !! "color" = Some (JStr c))
       ∧ (color route = None ∨ color route = Some "" →
            props !! "color" = Some (JStr "#FF0000")))
  ∧ (own !! "lineWidth" = None →
       (∀ w, lineWidth route = Some w → number_truthy w = true →
             props !! "lineWidth" = Some (JNum w))
       ∧ (lineWidth route = None
          ∨ (∃ w, lineWidth route = Some w ∧ number_truthy w = false) →
            props !! "lineWidth" = Some (JNum 4%float)))
  ∧ (∀ key, key ∉ ["id"; "name"; "color"; "lineWidth"] → props !! key = own !! key).

(** How a callback of the hook follows the method of the registry it
    wraps: the registry is left as the method leaves it and the handle of
    the map is untouched; when the method throws, the callback throws the
    same error and starts no timer; when it completes, the callback
    completes and starts one 100 ms sync timer if the map component is
    mounted, none if it is not. *)
Definition syncs_on_success {A} (method : RoutesManager.Method A)
    (callback : UseRoutes.Callback unit) (h : UseRoutes.Hook) : Prop :=
  UseRoutes.manager (callback h).2 = (method (UseRoutes.manager h)).2
  ∧ UseRoutes.handle (callback h).2 = UseRoutes.handle h
  ∧ match (method (UseRoutes.manager h)).1 with
    | Throw e =>
        (callback h).1 = Throw e
        ∧ UseRoutes.syncTimers (callback h).2 = UseRoutes.syncTimers h
    | Normal _ =>
        (callback h).1 = Normal tt
        ∧ UseRoutes.syncTimers (callback h).2
          = (UseRoutes.syncTimers h
             ++ match UseRoutes.handle h with
                | Some _ => [100%nat]
                | None => []
                end)%list
    end.

(** The hook sits on a map that is marked ready and has the routes
    source. *)
Definition on_ready_map (h : UseRoutes.Hook) : Prop :=
  ∃ c map shown,
    UseRoutes.handle h = Some c
    ∧ MapView.mapRef c = Some map
    ∧ MapView.isMapReady c = true
    ∧ MapView.routesSource map = Some shown.

(** The collection the map of the hook shows. *)
Definition shown_on_map (h : UseRoutes.Hook) : option FeatureCollection :=
  match UseRoutes.handle h with
  | Some c =>
      match MapView.mapRef c with
      | Some map => MapView.routesSource map
      | None => None
      end
  | None => None
  end.

(** ** Sample data *)

Module Sample.

Definition point (lng lat : number) : JsValue := JArr [JNum lng; JNum lat].

(** A well-formed route. *)
Definition route1 : Route :=
  {| id := "route-1"; name := Some "Route 1";
     coordinates := Some [point (-75.75) 45.5; point (-75.5) 45.25];
     color := Some "#FF0000"; lineWidth := None; properties := None |}.

(** A route with a fresh id and a single point. *)
Definition onePoint : Route :=
  {| id := "route-2"; name := Some "Route 2";
     coordinates := Some [point (-75.75) 45.5];
     color := None; lineWidth := None; properties := None |}.

(** A route whose second point lies east of 180 degrees. *)
Definition farEast : Route :=
  {| id := "route-3"; name := Some "Route 3";
     coordinates := Some [point (-75.75) 45.5; point 181 45.25];
     color := None; lineWidth := None; properties := None |}.

(** A route whose first longitude is NaN. *)
Definition nanRoute : Route :=
  {| id := "route-4"; name := Some "Route 4";
     coordinates := Some [point nan 45.5; point (-75.5) 45.25];
     color := None; lineWidth := None; properties := None |}.

(** A route with a zero line width, an empty color, and metadata that
    reuses the key [id]. *)
Definition overriding : Route :=
  {| id := "route-5"; name := Some "Route 5";
     coordinates := Some [point (-75.75) 45.5; point (-75.5) 45.25];
     color := Some ""; lineWidth := Some 0%float;
     properties := Some {[ "id" := JStr "other" ]} |}.

(** [{ color: '#FFA500', lineWidth: 6 }] *)
Definition recolor : RouteUpdates :=
  {| u_name := None; u_coordinates := None;
     u_color := Some (Some "#FFA500"); u_lineWidth := Some (Some 6%float);
     u_properties := None |}.

(** [{ coordinates: [] }] *)
Definition truncate : RouteUpdates :=
  {| u_name := None; u_coordinates := Some (Some []);
     u_color := None; u_lineWidth := None; u_properties := None |}.

Definition polygon (tag : string) (coords : JsValue) : Feature :=
  {| f_type := "Feature";
     f_geometry := {| g_type := tag; g_coordinates := coords; g_members := ∅ |};
     f_properties := Some {[ "DAUID" := JStr "35060001" ]};
     f_members := {[ "id" := JNum 7%float ]} |}.

(** A projection that shifts a point and fails west of the origin. *)
Definition shift (x y : number) : Completion (number * number) :=
  if PrimFloat.ltb x 0%float then Throw (Error "out of range")
  else Normal (PrimFloat.add x 1%float, PrimFloat.add y 1%float).

Definition showNumber (x : number) : string := "number".

Definition respond (r : Response FeatureCollection) (url : string)
  : Completion (Response FeatureCollection) := Normal r.

Definition boundaries : FeatureCollection :=
  {| fc_type := "FeatureCollection";
     fc_features :=
       [ polygon "Polygon" (JArr [JArr [point 1 2; point 3 4; point 1 2]]);
         polygon "Polygon" (JArr [JArr [point (-1) 2; point 3 4]]);
         polygon "Point" (point (-1) 2) ];
     fc_members := ∅ |}.

Definition notFound : Response FeatureCollection :=
  {| ok := false; statusText := "Not Found"; body := None |}.

Definition found : Response FeatureCollection :=
  {| ok := true; statusText := "OK"; body := Some boundaries |}.

(** A map that has fired its load event: the routes source is there and
    empty. *)
Definition readyMap : MapView.Component :=
  {| MapView.mapRef :=
       Some {| MapView.routesSource := Some MapView.EMPTY_ROUTES;
               MapView.styleLoaded := true;
               MapView.loadListeners := [] |};
     MapView.isMapReady := true;
     MapView.timers := [] |}.

(** A map whose style is still loading. *)
Definition loadingMap : MapView.Component :=
  {| MapView.mapRef :=
       Some {| MapView.routesSource := None;
               MapView.styleLoaded := false;
               MapView.loadListeners := [] |};
     MapView.isMapReady := false;
     MapView.timers := [] |}.

(** The hook with an empty registry, over the mounted ready map. *)
Definition mountedHook : UseRoutes.Hook :=
  {| UseRoutes.manager := [];
     UseRoutes.handle := Some readyMap;
     UseRoutes.syncTimers := [] |}.

End Sample.

(* ===================================================================== *)
(** * Properties                                                          *)
(* ===================================================================== *)

(** ** IEEE comparisons *)

Section FloatOrder.

Lemma SFcompare_antisym (a b : spec_float) :
  SFcompare b a = CompOpp <$> SFcompare a b.
Proof.
  destruct a as [[]| []| |[] ma ea], b as [[]| []| |[] mb eb]; simpl; try reflexivity.
  - rewrite (Z.compare_antisym ea eb).
    destruct (ea ?= eb)%Z; simpl; try reflexivity.
    by rewrite (ZC4 mb ma).
  - rewrite (Z.compare_antisym ea eb).
    destruct (ea ?= eb)%Z; simpl; try reflexivity.
    by rewrite (ZC4 mb ma).
Qed.


(** A number that is not NaN and is neither below [lo] nor above [hi]
    lies between them, provided the bounds are numbers themselves. *)
Lemma not_ltb_leb (a b : number) :
  PrimFloat.is_nan a = false → PrimFloat.is_nan b = false →
  PrimFloat.ltb b a = false → PrimFloat.leb a b = true.
Proof.
  unfold PrimFloat.is_nan. rewrite !FloatAxioms.eqb_spec, leb_spec, ltb_spec.
  unfold SFeqb, SFleb, SFltb.
  rewrite (SFcompare_antisym (Prim2SF a) (Prim2SF b)).
  destruct (Prim2SF a) as [[]| []| |[] ma ea] eqn:Ea,
           (Prim2SF b) as [[]| []| |[] mb eb] eqn:Eb; simpl; try done.
  all: intros _ _; destruct (ea ?= eb)%Z; simpl; try done.
  all: destruct (Pos.compare_cont Eq ma mb); simpl; done.
Qed.

(** NaN is neither below nor above any number, and neither at least nor at
    most any number. *)
Lemma nan_unordered (a : number) :
  PrimFloat.ltb nan a = false ∧ PrimFloat.ltb a nan = false
  ∧ PrimFloat.leb nan a = false ∧ PrimFloat.leb a nan = false.
Proof.
  rewrite !ltb_spec, !leb_spec. unfold SFltb, SFleb.
  change (Prim2SF nan) with S754_nan.
  by destruct (Prim2SF a) as [[]| []| |[] ma ea].
Qed.

End FloatOrder.

(** ** The insertion-ordered map *)

Section JsMapFacts.
Context {V : Type}.
Implicit Types (m : JsMap.t V) (k j : string) (v : V).

Lemma get_set_eq k v m : JsMap.get k (JsMap.set k v m) = Some v.
Proof.
  induction m as [|[k' v'] m IH]; simpl.
  - by rewrite String.eqb_refl.
  - destruct (String.eqb k k') eqn:E; simpl.
    + by rewrite String.eqb_refl.
    + by rewrite E.
Qed.

Lemma get_set_ne k j v m : j ≠ k → JsMap.get j (JsMap.set k v m) = JsMap.get j m.
Proof.
  intros Hne. apply String.eqb_neq in Hne.
  induction m as [|[k' v'] m IH]; simpl.
  - by rewrite Hne.
  - destruct (String.eqb k k') eqn:E; simpl.
    + apply String.eqb_eq in E as <-. by rewrite Hne.
    + by rewrite IH.
Qed.

Lemma get_delete_eq k m : JsMap.get k (JsMap.delete k m) = None.
Proof.
  induction m as [|[k' v'] m IH]; simpl; [done|].
  destruct (String.eqb k k') eqn:E; simpl; [done|]. by rewrite E.
Qed.

Lemma get_delete_ne k j m : j ≠ k → JsMap.get j (JsMap.delete k m) = JsMap.get j m.
Proof.
  intros Hne. apply String.eqb_neq in Hne.
  induction m as [|[k' v'] m IH]; simpl; [done|].
  destruct (String.eqb k k') eqn:E; simpl.
  - apply String.eqb_eq in E as <-. by rewrite Hne.
  - by rewrite IH.
Qed.

Lemma has_false_get k m : JsMap.has k m = false ↔ JsMap.get k m = None.
Proof. unfold JsMap.has. by destruct (JsMap.get k m). Qed.

Lemma has_true_get k m : JsMap.has k m = true ↔ is_Some (JsMap.get k m).
Proof.
  unfold JsMap.has. destruct (JsMap.get k m); split; try done.
Qed.

Lemma delete_absent k m : JsMap.has k m = false → JsMap.delete k m = m.
Proof.
  rewrite has_false_get.
  induction m as [|[k' v'] m IH]; simpl; [done|].
  destruct (String.eqb k k'); [done|]. intros H. by rewrite IH.
Qed.

Lemma set_absent k v m : JsMap.has k m = false → JsMap.set k v m = (m ++ [(k, v)])%list.
Proof.
  rewrite has_false_get.
  induction m as [|[k' v'] m IH]; simpl; [done|].
  destruct (String.eqb k k'); [done|]. intros H. by rewrite IH.
Qed.

Lemma has_true_keys k m : JsMap.has k m = true ↔ k ∈ JsMap.keys m.
Proof.
  rewrite has_true_get. unfold JsMap.keys.
  induction m as [|[k' v'] m IH]; simpl.
  - split; [by intros [? ?]|]. by intros ?%elem_of_nil.
  - destruct (String.eqb k k') eqn:E.
    + apply String.eqb_eq in E as <-. split; [intros _; left|by eauto].
    + apply String.eqb_neq in E. rewrite IH. split; [by right|].
      by intros [?|?]%elem_of_cons.
Qed.

Lemma elem_of_set k v m j w :
  (j, w) ∈ JsMap.set k v m → (j, w) = (k, v) ∨ (j, w) ∈ m.
Proof.
  induction m as [|[k' v'] m IH]; simpl.
  - intros ?%list_elem_of_singleton. by left.
  - destruct (String.eqb k k').
    + intros [->|?]%elem_of_cons; [by left|]. right. by right.
    + intros [->|H]%elem_of_cons; [right; left|].
      destruct (IH H) as [?|?]; [by left|]. right. by right.
Qed.

Lemma elem_of_delete k m j w : (j, w) ∈ JsMap.delete k m → (j, w) ∈ m ∧ j ≠ k.
Proof.
  induction m as [|[k' v'] m IH]; simpl; [by intros ?%elem_of_nil|].
  destruct (String.eqb k k') eqn:E.
  - intros H. destruct (IH H). split; [by right|done].
  - apply String.eqb_neq in E.
    intros [[= -> ->]|H]%elem_of_cons; [split; [left|done]|].
    destruct (IH H). split; [by right|done].
Qed.

Lemma keys_set_present k v m :
  JsMap.has k m = true → JsMap.keys (JsMap.set k v m) = JsMap.keys m.
Proof.
  rewrite has_true_get. unfold JsMap.keys.
  induction m as [|[k' v'] m IH]; simpl; [by intros [? ?]|].
  destruct (String.eqb k k') eqn:E; simpl.
  - by apply String.eqb_eq in E as <-.
  - intros H. f_equal. by apply IH.
Qed.

Lemma NoDup_keys_set k v m :
  NoDup (JsMap.keys m) → NoDup (JsMap.keys (JsMap.set k v m)).
Proof.
  intros Hnd. destruct (JsMap.has k m) eqn:E.
  - by rewrite keys_set_present.
  - rewrite set_absent by done. unfold JsMap.keys in *.
    rewrite fmap_app. simpl. apply NoDup_app. split_and!; [done| |apply NoDup_singleton].
    intros x Hx ->%list_elem_of_singleton.
    apply has_true_keys in Hx. congruence.
Qed.

Lemma NoDup_keys_delete k m :
  NoDup (JsMap.keys m) → NoDup (JsMap.keys (JsMap.delete k m)).
Proof.
  unfold JsMap.keys.
  induction m as [|[k' v'] m IH]; simpl; [done|].
  intros [Hnot Hnd]%NoDup_cons.
  destruct (String.eqb k k'); [by apply IH|].
  simpl. apply NoDup_cons. split; [|by apply IH].
  intros [[j w] [-> Hin]]%list_elem_of_fmap. simpl in *.
  apply elem_of_delete in Hin as [Hin _]. apply Hnot.
  apply list_elem_of_fmap. by exists (j, w).
Qed.

End JsMapFacts.

(** ** Completions *)




(** ** Coordinate validation *)

Section Validation.
Import RoutesManager.






End Validation.

(** ** The methods of the registry, case by case *)

(** Expose the state passing of a method body. *)
Ltac unfold_method :=
  unfold mbind, RoutesManager.method_bind, RoutesManager.bindM,
    RoutesManager.routes_has, RoutesManager.routes_get, RoutesManager.routes_set,
    RoutesManager.routes_delete, RoutesManager.lift, RoutesManager.throw.

Section Methods.
Import RoutesManager.
Implicit Types (routes : Registry) (route : Route) (i : string).

Lemma string_truthy_nonempty (s : string) : string_truthy s = true ↔ s ≠ "".
Proof.
  unfold string_truthy. rewrite negb_true_iff. apply String.eqb_neq.
Qed.

Lemma addRoute_no_id route routes :
  id route = "" →
  addRoute route routes = (Throw (Error "Route must have an id"), routes).
Proof. unfold addRoute. by intros ->. Qed.

Lemma addRoute_duplicate route routes :
  id route ≠ "" → JsMap.has (id route) routes = true →
  addRoute route routes =
    (Throw (Error ("Route with id " +:+ dquote +:+ id route +:+ dquote
                     +:+ " already exists")), routes).
Proof.
  intros Hid%string_truthy_nonempty Hhas. unfold addRoute. rewrite Hid. simpl.
  unfold_method. by rewrite Hhas.
Qed.

Lemma addRoute_invalid route routes e :
  id route ≠ "" → JsMap.has (id route) routes = false →
  validateRoute route = Throw e →
  addRoute route routes = (Throw e, routes).
Proof.
  intros Hid%string_truthy_nonempty Hhas Hval. unfold addRoute. rewrite Hid. simpl.
  unfold_method.
  by rewrite Hhas, Hval.
Qed.

Lemma addRoute_fresh route routes :
  id route ≠ "" → JsMap.has (id route) routes = false →
  validateRoute route = Normal tt →
  addRoute route routes = (Normal tt, JsMap.set (id route) route routes).
Proof.
  intros Hid%string_truthy_nonempty Hhas Hval. unfold addRoute. rewrite Hid. simpl.
  unfold_method.
  by rewrite Hhas, Hval.
Qed.

(** The four outcomes of [addRoute]. *)
Lemma addRoute_cases route routes :
  (id route = "" ∧
     addRoute route routes = (Throw (Error "Route must have an id"), routes))
  ∨ (id route ≠ "" ∧ JsMap.has (id route) routes = true ∧
     ∃ e, addRoute route routes = (Throw e, routes))
  ∨ (id route ≠ "" ∧ JsMap.has (id route) routes = false ∧
     ∃ e, validateRoute route = Throw e ∧ addRoute route routes = (Throw e, routes))
  ∨ (id route ≠ "" ∧ JsMap.has (id route) routes = false ∧
     validateRoute route = Normal tt ∧
     addRoute route routes = (Normal tt, JsMap.set (id route) route routes)).
Proof.
  destruct (decide (id route = "")) as [Hid|Hid].
  { left. eauto using addRoute_no_id. }
  right. destruct (JsMap.has (id route) routes) eqn:Hhas.
  { left. eauto using addRoute_duplicate. }
  right. destruct (validateRoute route) as [[]|e] eqn:Hval.
  - right. eauto using addRoute_fresh.
  - left. eauto 6 using addRoute_invalid.
Qed.

Lemma updateRoute_missing i updates routes :
  JsMap.get i routes = None →
  updateRoute i updates routes =
    (Throw (Error ("Route with id " +:+ dquote +:+ i +:+ dquote +:+ " not found")),
     routes).
Proof.
  intros Hget. unfold updateRoute.
  unfold_method. by rewrite Hget.
Qed.

Lemma updateRoute_invalid i updates routes existing e :
  JsMap.get i routes = Some existing →
  validateRoute (mergeRoute existing updates i) = Throw e →
  updateRoute i updates routes = (Throw e, routes).
Proof.
  intros Hget Hval. unfold updateRoute.
  unfold_method.
  by rewrite Hget, Hval.
Qed.

Lemma updateRoute_valid i updates routes existing :
  JsMap.get i routes = Some existing →
  validateRoute (mergeRoute existing updates i) = Normal tt →
  updateRoute i updates routes =
    (Normal tt, JsMap.set i (mergeRoute existing updates i) routes).
Proof.
  intros Hget Hval. unfold updateRoute.
  unfold_method.
  by rewrite Hget, Hval.
Qed.

(** The three outcomes of [updateRoute]. *)
Lemma updateRoute_cases i updates routes :
  (JsMap.get i routes = None ∧ ∃ e, updateRoute i updates routes = (Throw e, routes))
  ∨ (∃ existing e, JsMap.get i routes = Some existing ∧
       validateRoute (mergeRoute existing updates i) = Throw e ∧
       updateRoute i updates routes = (Throw e, routes))
  ∨ (∃ existing, JsMap.get i routes = Some existing ∧
       validateRoute (mergeRoute existing updates i) = Normal tt ∧
       updateRoute i updates routes =
         (Normal tt, JsMap.set i (mergeRoute existing updates i) routes)).
Proof.
  destruct (JsMap.get i routes) as [existing|] eqn:Hget.
  - right. destruct (validateRoute (mergeRoute existing updates i)) as [[]|e] eqn:Hval.
    + right. eauto using updateRoute_valid.
    + left. eauto 6 using updateRoute_invalid.
  - left. eauto using updateRoute_missing.
Qed.

End Methods.

(** ** C1: validation on insertion and on update *)



(** ** C2: insertion and the uniqueness of identifiers *)

(** C2, as stated, fails: a route with a fresh, non-empty id is not inserted
    when its coordinates do not pass validation.  [addRoute] throws and the
    registry stays empty. *)
Lemma C2_counterexample :
  id Sample.onePoint ≠ ""
  ∧ JsMap.has (id Sample.onePoint) (@JsMap.empty Route) = false
  ∧ RoutesManager.addRoute Sample.onePoint (@JsMap.empty Route)
    = (Throw (Error "Route must have at least 2 coordinates"), (@JsMap.empty Route))
  ∧ (RoutesManager.addRoute Sample.onePoint (@JsMap.empty Route)).1 ≠ Normal tt
  ∧ JsMap.get (id Sample.onePoint)
      (RoutesManager.addRoute Sample.onePoint (@JsMap.empty Route)).2 = None.
Proof. split_and!; done. Qed.

(** C2, amended.  [addRoute] throws when the id of the route is empty and
    when a route with the same id is present; otherwise it validates the
    coordinates, throws when the validation does, and else inserts the
    route under its id, after the routes already stored.  In every case the
    identifiers stored stay pairwise distinct. *)
Theorem C2_addRoute_enforces_unique_ids :
  ∀ (routes : RoutesManager.Registry) (route : Route),
    (id route = "" → throws (RoutesManager.addRoute route routes).1)
    ∧ (JsMap.has (id route) routes = true →
         throws (RoutesManager.addRoute route routes).1)
    ∧ (id route ≠ "" → JsMap.has (id route) routes = false →
         ∀ e, RoutesManager.validateRoute route = Throw e →
              RoutesManager.addRoute route routes = (Throw e, routes))
    ∧ (id route ≠ "" → JsMap.has (id route) routes = false →
         RoutesManager.validateRoute route = Normal tt →
         RoutesManager.addRoute route routes
           = (Normal tt, (routes ++ [(id route, route)])%list)
         ∧ JsMap.get (id route) (RoutesManager.addRoute route routes).2 = Some route)
    ∧ (NoDup (JsMap.keys routes) →
         NoDup (JsMap.keys (RoutesManager.addRoute route routes).2)).
Proof.
  intros routes route. split_and!.
  - intros Hid. rewrite addRoute_no_id by done. by eexists.
  - intros Hhas. destruct (decide (id route = "")) as [Hid|Hid].
    + rewrite addRoute_no_id by done. by eexists.
    + rewrite addRoute_duplicate by done. by eexists.
  - intros Hid Hhas e Hval. by apply addRoute_invalid.
  - intros Hid Hhas Hval. rewrite addRoute_fresh by done. simpl.
    split; [by rewrite set_absent|apply get_set_eq].
  - intros Hnd.
    destruct (addRoute_cases route routes)
      as [[_ ->]|[(_ & _ & e' & ->)|[(_ & _ & e' & _ & ->)|(_ & _ & _ & ->)]]];
      simpl; auto using NoDup_keys_set.
Qed.

Lemma C2_witness :
  RoutesManager.addRoute Sample.route1 (@JsMap.empty Route)
    = (Normal tt, [(id Sample.route1, Sample.route1)])
  ∧ throws (RoutesManager.addRoute Sample.route1
              [(id Sample.route1, Sample.route1)]).1.
Proof.
  destruct (C2_addRoute_enforces_unique_ids (@JsMap.empty Route) Sample.route1)
    as (_ & _ & _ & Hfresh & _).
  destruct (C2_addRoute_enforces_unique_ids
              [(id Sample.route1, Sample.route1)] Sample.route1)
    as (_ & Hdup & _).
  split.
  - apply Hfresh; [done|reflexivity|by vm_compute].
  - apply Hdup. reflexivity.
Defined.

(** ** C3: conversion to GeoJSON *)

Lemma routeFeature_properties (route : Route) :
  ∃ props, f_properties (RoutesManager.routeFeature route) = Some props
           ∧ feature_properties_of route props.
Proof.
  eexists. split; [reflexivity|]. unfold feature_properties_of. simpl.
  set (own := default ∅ (properties route)). split_and!.
  - intros key v Hown. by apply lookup_union_Some_l.
  - intros Hown. by rewrite lookup_union_r, lookup_insert_eq.
  - intros Hown. rewrite lookup_union_r by done. by simplify_map_eq.
  - intros Hown. rewrite lookup_union_r by done. simplify_map_eq. split.
    + intros c -> Hc%string_truthy_nonempty. simpl. by rewrite Hc.
    + by intros [->| ->].
  - intros Hown. rewrite lookup_union_r by done. simplify_map_eq. split.
    + intros w -> Hw. simpl. by rewrite Hw.
    + intros [->|(w & -> & Hw)]; simpl; [done|by rewrite Hw].
  - intros key Hkey. rewrite !not_elem_of_cons in Hkey.
    destruct Hkey as (? & ? & ? & ? & _).
    rewrite lookup_union. rewrite !lookup_insert_ne, lookup_empty by done.
    by destruct (own !! key).
Qed.

(** C3, as stated, fails: the registry that holds the single valid route
    [Sample.overriding] (id ["route-5"], line width [0], metadata
    [{ id: 'other' }]) is converted to one feature whose property [id] is
    ['other'], not the id of the route, and whose property [lineWidth] is
    [4], not the line width of the route. *)
Lemma C3_counterexample :
  let routes := [(id Sample.overriding, Sample.overriding)] in
  RoutesManager.addRoute Sample.overriding (@JsMap.empty Route) = (Normal tt, routes)
  ∧ ∃ fc f props,
      RoutesManager.toGeoJSON routes = (Normal fc, routes)
      ∧ fc_features fc = [f]
      ∧ f_properties f = Some props
      ∧ props !! "id" = Some (JStr "other")
      ∧ props !! "id" ≠ Some (JStr (id Sample.overriding))
      ∧ props !! "lineWidth" = Some (JNum 4%float)
      ∧ lineWidth Sample.overriding = Some 0%float
      ∧ props !! "lineWidth" ≠ Some (JNum 0%float).
Proof.
  split; [by vm_compute|].
  eexists _, _, _. split_and!; try reflexivity.
  - by vm_compute.
  - vm_compute. intros [=].
Qed.

(** C3, amended.  [toGeoJSON] returns a FeatureCollection with one
    LineString feature per stored route, in the order of insertion; the
    geometry of the feature has the coordinates of the route; its properties
    are the members of [route.properties] together with the id, name, color
    and lineWidth of the route, each of these four unless [route.properties]
    has a member of the same name, which then takes its place; the color is
    ['#FF0000'] when the route has no color or an empty one, and the
    lineWidth is [4] when the route has no lineWidth or one that is 0 or
    NaN.  The registry is left as it was. *)
Theorem C3_toGeoJSON_features :
  ∀ routes : RoutesManager.Registry,
    ∃ fc,
      RoutesManager.toGeoJSON routes = (Normal fc, routes)
      ∧ fc_type fc = "FeatureCollection"
      ∧ List.length (fc_features fc) = List.length routes
      ∧ ∀ (n : nat) k route,
          routes !! n = Some (k, route) →
          ∃ f props,
            fc_features fc !! n = Some f
            ∧ f_type f = "Feature"
            ∧ g_type (f_geometry f) = "LineString"
            ∧ (∀ coords, coordinates route = Some coords →
                         g_coordinates (f_geometry f) = JArr coords)
            ∧ f_properties f = Some props
            ∧ feature_properties_of route props.
Proof.
  intros routes. eexists. split; [reflexivity|]. simpl. split_and!.
  - done.
  - unfold JsMap.values. by rewrite !length_fmap.
  - intros n k route Hn.
    destruct (routeFeature_properties route) as (props & Hprops & Hspec).
    exists (RoutesManager.routeFeature route), props. split_and!; try done.
    + unfold JsMap.values. by rewrite !list_lookup_fmap, Hn.
    + intros coords Hc. simpl. by rewrite Hc.
Qed.

Lemma C3_witness :
  ∃ f props,
    f_type f = "Feature"
    ∧ g_coordinates (f_geometry f)
      = JArr [Sample.point (-75.75) 45.5; Sample.point (-75.5) 45.25]
    ∧ f_properties f = Some props
    ∧ props !! "color" = Some (JStr "#FF0000")
    ∧ props !! "lineWidth" = Some (JNum 4%float).
Proof.
  destruct (C3_toGeoJSON_features [(id Sample.route1, Sample.route1)])
    as (fc & _ & _ & _ & Hfeatures).
  destruct (Hfeatures 0%nat _ _ eq_refl)
    as (f & props & _ & Htype & _ & Hcoords & Hprops & Hspec).
  destruct Hspec as (_ & _ & _ & Hcolor & Hwidth & _).
  exists f, props. split_and!; [done|by apply Hcoords|done|..].
  - by apply (proj1 (Hcolor eq_refl) "#FF0000").
  - apply (proj2 (Hwidth eq_refl)). by left.
Defined.

(** ** C4: updates *)

(** C4.  When [updateRoute(id, updates)] completes normally, a route was
    stored under [id] before and one is stored under [id] after; the new one
    has identifier [id]; each of its fields has the value [updates] gives it
    when [updates] names the field and the value of the existing route when
    it does not; and the routes stored under the other ids are untouched. *)
Theorem C4_updateRoute_merges_fields :
  ∀ (routes routes' : RoutesManager.Registry) (i : string) (updates : RouteUpdates),
    RoutesManager.updateRoute i updates routes = (Normal tt, routes') →
    ∃ existing stored,
      JsMap.get i routes = Some existing
      ∧ JsMap.get i routes' = Some stored
      ∧ id stored = i
      ∧ follows (u_name updates) (name existing) (name stored)
      ∧ follows (u_coordinates updates) (coordinates existing) (coordinates stored)
      ∧ follows (u_color updates) (color existing) (color stored)
      ∧ follows (u_lineWidth updates) (lineWidth existing) (lineWidth stored)
      ∧ follows (u_properties updates) (properties existing) (properties stored)
      ∧ (∀ j, j ≠ i → JsMap.get j routes' = JsMap.get j routes)
      ∧ JsMap.keys routes' = JsMap.keys routes.
Proof.
  intros routes routes' i updates Hupdate.
  destruct (updateRoute_cases i updates routes)
    as [(_ & e & He)|[(existing & e & _ & _ & He)|(existing & Hget & _ & Hok)]];
    [congruence..|].
  rewrite Hok in Hupdate. injection Hupdate as <-.
  exists existing, (RoutesManager.mergeRoute existing updates i).
  assert (∀ A (u : option A) old, follows u old (RoutesManager.spread old u)) as Hspread.
  { intros A [v|] old; split; simpl; congruence. }
  split_and!; [done|apply get_set_eq|done|apply Hspread..| |].
  - intros j Hj. by apply get_set_ne.
  - apply keys_set_present, has_true_get. by exists existing.
Qed.

Lemma C4_witness :
  ∃ stored,
    JsMap.get "route-1"
      (RoutesManager.updateRoute "route-1" Sample.recolor
         [(id Sample.route1, Sample.route1)]).2 = Some stored
    ∧ id stored = "route-1"
    ∧ color stored = Some "#FFA500"
    ∧ lineWidth stored = Some 6%float
    ∧ name stored = Some "Route 1".
Proof.
  destruct (C4_updateRoute_merges_fields
              [(id Sample.route1, Sample.route1)]
              (RoutesManager.updateRoute "route-1" Sample.recolor
                 [(id Sample.route1, Sample.route1)]).2
              "route-1" Sample.recolor)
    as (existing & stored & Hget & Hstored & Hid & Hname & _ & Hcolor & Hwidth & _).
  { by vm_compute. }
  injection Hget as <-.
  exists stored. split_and!; [done|done|..].
  - by apply Hcolor.
  - by apply Hwidth.
  - by apply Hname.
Defined.

(** ** C5: a throw leaves the registry as it was *)

(** C5.  [addRoute] throws on a duplicate id and [updateRoute] on a missing
    one; an error thrown by the validation of the coordinates is the error
    the caller of [addRoute], or of [updateRoute], receives; and whenever
    one of the two throws, the registry it leaves behind is the registry it
    was called on. *)
Theorem C5_failed_mutation_leaves_registry :
  ∀ routes : RoutesManager.Registry,
    (∀ route e routes',
       RoutesManager.addRoute route routes = (Throw e, routes') → routes' = routes)
    ∧ (∀ i updates e routes',
         RoutesManager.updateRoute i updates routes = (Throw e, routes') →
         routes' = routes)
    ∧ (∀ route, JsMap.has (id route) routes = true →
         throws (RoutesManager.addRoute route routes).1)
    ∧ (∀ i updates, JsMap.has i routes = false →
         throws (RoutesManager.updateRoute i updates routes).1)
    ∧ (∀ route e, id route ≠ "" → JsMap.has (id route) routes = false →
         RoutesManager.validateRoute route = Throw e →
         (RoutesManager.addRoute route routes).1 = Throw e)
    ∧ (∀ i updates existing e, JsMap.get i routes = Some existing →
         RoutesManager.validateRoute (RoutesManager.mergeRoute existing updates i)
           = Throw e →
         (RoutesManager.updateRoute i updates routes).1 = Throw e).
Proof.
  intros routes. split_and!.
  - intros route e routes' Hadd.
    destruct (addRoute_cases route routes)
      as [[_ H]|[(_ & _ & e' & H)|[(_ & _ & e' & _ & H)|(_ & _ & _ & H)]]];
      congruence.
  - intros i updates e routes' Hupdate.
    destruct (updateRoute_cases i updates routes)
      as [(_ & e' & H)|[(existing & e' & _ & _ & H)|(existing & _ & _ & H)]];
      congruence.
  - intros route Hhas. destruct (decide (id route = "")) as [Hid|Hid].
    + rewrite addRoute_no_id by done. by eexists.
    + rewrite addRoute_duplicate by done. by eexists.
  - intros i updates Hhas%has_false_get.
    rewrite updateRoute_missing by done. by eexists.
  - intros route e Hid Hhas Hval. by rewrite (addRoute_invalid _ _ e).
  - intros i updates existing e Hget Hval.
    by rewrite (updateRoute_invalid _ _ _ existing e).
Qed.

Lemma C5_witness :
  (RoutesManager.addRoute Sample.route1 [(id Sample.route1, Sample.route1)]).2
    = [(id Sample.route1, Sample.route1)]
  ∧ (RoutesManager.updateRoute "route-1" Sample.truncate
       [(id Sample.route1, Sample.route1)]).2
    = [(id Sample.route1, Sample.route1)]
  ∧ (RoutesManager.updateRoute "route-1" Sample.truncate
       [(id Sample.route1, Sample.route1)]).1
    = Throw (Error "Route must have at least 2 coordinates").
Proof.
  destruct (C5_failed_mutation_leaves_registry [(id Sample.route1, Sample.route1)])
    as (Hadd & Hupdate & _ & _ & _ & Hval).
  split_and!.
  - destruct (RoutesManager.addRoute Sample.route1 [(id Sample.route1, Sample.route1)])
      as [[[]|e] routes'] eqn:E.
    + vm_compute in E. discriminate E.
    + exact (Hadd _ _ _ E).
  - destruct (RoutesManager.updateRoute "route-1" Sample.truncate
                [(id Sample.route1, Sample.route1)])
      as [[[]|e] routes'] eqn:E.
    + vm_compute in E. discriminate E.
    + exact (Hupdate _ _ _ _ E).
  - apply (Hval "route-1" Sample.truncate Sample.route1); reflexivity.
Defined.

(** ** C9: deletion *)

(** C9.  [removeRoute(id)] always completes normally.  When a route is
    stored under [id] it returns [true], no route is stored under [id]
    afterwards and the other routes are untouched; when none is, it returns
    [false] and leaves the registry as it was. *)
Theorem C9_removeRoute_never_throws :
  ∀ (routes : RoutesManager.Registry) (i : string),
    ∃ removed routes',
      RoutesManager.removeRoute i routes = (Normal removed, routes')
      ∧ JsMap.get i routes' = None
      ∧ (∀ j, j ≠ i → JsMap.get j routes' = JsMap.get j routes)
      ∧ (JsMap.has i routes = true → removed = true)
      ∧ (JsMap.has i routes = false → removed = false ∧ routes' = routes).
Proof.
  intros routes i. eexists _, _. split; [reflexivity|]. split_and!.
  - apply get_delete_eq.
  - intros j Hj. by apply get_delete_ne.
  - done.
  - intros Hhas. split; [done|by apply delete_absent].
Qed.

Lemma C9_witness :
  RoutesManager.removeRoute "route-1" [(id Sample.route1, Sample.route1)]
    = (Normal true, [])
  ∧ RoutesManager.removeRoute "route-9" [(id Sample.route1, Sample.route1)]
    = (Normal false, [(id Sample.route1, Sample.route1)]).
Proof.
  destruct (C9_removeRoute_never_throws [(id Sample.route1, Sample.route1)] "route-1")
    as (removed & routes' & Hrun & _ & _ & Htrue & _).
  destruct (C9_removeRoute_never_throws [(id Sample.route1, Sample.route1)] "route-9")
    as (removed9 & routes9 & Hrun9 & _ & _ & _ & Hfalse).
  split.
  - rewrite Hrun. rewrite (Htrue eq_refl). by injection Hrun as _ <-.
  - rewrite Hrun9. by destruct (Hfalse eq_refl) as [-> ->].
Defined.

(** ** C8: what every operation maintains *)

Section Invariant.
Import RoutesManager.
Implicit Types (routes : Registry) (route : Route) (i : string).

Lemma keyed_and_validated_set routes route :
  keyed_and_validated routes → validateRoute route = Normal tt →
  keyed_and_validated (JsMap.set (id route) route routes).
Proof.
  intros [Hnd Hall] Hval. split; [by apply NoDup_keys_set|].
  intros k r [[= -> ->]|Hin]%elem_of_set; [done|by apply Hall].
Qed.

Lemma keyed_and_validated_delete routes i :
  keyed_and_validated routes → keyed_and_validated (JsMap.delete i routes).
Proof.
  intros [Hnd Hall]. split; [by apply NoDup_keys_delete|].
  intros k r [Hin _]%elem_of_delete. by apply Hall.
Qed.

Lemma addRoute_maintains route routes :
  keyed_and_validated routes → keyed_and_validated (addRoute route routes).2.
Proof.
  intros Hinv.
  destruct (addRoute_cases route routes)
    as [[_ ->]|[(_ & _ & e' & ->)|[(_ & _ & e' & _ & ->)|(_ & _ & Hval & ->)]]];
    simpl; auto using keyed_and_validated_set.
Qed.

Lemma addRoutes_maintains (batch : list Route) routes :
  keyed_and_validated routes → keyed_and_validated (addRoutes batch routes).2.
Proof.
  revert routes. induction batch as [|route batch IH]; intros routes Hinv; [done|].
  simpl. unfold_method.
  pose proof (addRoute_maintains route routes Hinv) as Hstep.
  destruct (addRoute route routes) as [[[]|e] routes1]; simpl in *; [|done].
  by apply IH.
Qed.

Lemma updateRoute_maintains i updates routes :
  keyed_and_validated routes → keyed_and_validated (updateRoute i updates routes).2.
Proof.
  intros Hinv.
  destruct (updateRoute_cases i updates routes)
    as [(_ & e' & ->)|[(existing & e' & _ & _ & ->)|(existing & _ & Hval & ->)]];
    simpl; [done..|].
  by apply (keyed_and_validated_set routes (mergeRoute existing updates i)).
Qed.

Lemma removeRoutes_maintains (ids : list string) routes :
  keyed_and_validated routes → keyed_and_validated (removeRoutes ids routes).2.
Proof.
  revert routes. induction ids as [|i ids IH]; intros routes Hinv; [done|].
  simpl. unfold_method.
  by apply IH, keyed_and_validated_delete.
Qed.

(** Every operation of the registry, whether it completes normally or
    throws, leaves every stored route keyed by its own id and accepted by
    [validateRoute], and no id stored twice. *)
Lemma registry_maintains_validated :
  (∀ initialRoutes, keyed_and_validated (constructor initialRoutes).2)
  ∧ ∀ routes, keyed_and_validated routes →
      (∀ route, keyed_and_validated (addRoute route routes).2)
      ∧ (∀ batch, keyed_and_validated (addRoutes batch routes).2)
      ∧ (∀ i updates, keyed_and_validated (updateRoute i updates routes).2)
      ∧ (∀ i, keyed_and_validated (removeRoute i routes).2)
      ∧ (∀ ids, keyed_and_validated (removeRoutes ids routes).2)
      ∧ keyed_and_validated (clearAll routes).2.
Proof.
  assert (keyed_and_validated (@JsMap.empty Route)) as Hempty.
  { split; [apply NoDup_nil_2|]. by intros k r ?%elem_of_nil. }
  split.
  - intros initialRoutes. by apply addRoutes_maintains.
  - intros routes Hinv.
    split_and!; auto using addRoute_maintains, addRoutes_maintains,
      updateRoute_maintains, removeRoutes_maintains.
    intros i. by apply keyed_and_validated_delete.
Qed.

(** A point that [validateRoute] lets through is a valid point of the
    specification unless one of its two numbers is NaN. *)
Lemma accepted_point_valid_unless_nan (p : JsValue) :
  validateCoordinate p = Normal tt →
  ∃ lng lat, p = JArr [JNum lng; JNum lat]
    ∧ (PrimFloat.is_nan lng = false → within (-180)%float 180%float lng)
    ∧ (PrimFloat.is_nan lat = false → within (-90)%float 90%float lat).
Proof.
  intros Hok. unfold validateCoordinate in Hok.
  repeat case_match; simplify_eq.
  repeat match goal with H : _ || _ = false |- _ =>
    apply orb_false_iff in H as [? ?] end.
  eexists _, _. split; [done|].
  split; intros Hnan; split; by apply not_ltb_leb.
Qed.

End Invariant.

(** C8, at the input on which the code departs from it.  The constructor,
    given the single route [Sample.nanRoute], whose first point is
    [[NaN, 45.5]], completes normally and stores the route: both range tests
    of [validateRoute] are false on NaN.  The stored route is keyed by its
    id, but its first longitude is not in [[-180, 180]], so the stored route
    does not satisfy the coordinate validation of the specification. *)
Theorem C8_nan_longitude_is_stored :
  RoutesManager.constructor [Sample.nanRoute]
    = (Normal tt, [(id Sample.nanRoute, Sample.nanRoute)])
  ∧ RoutesManager.validateRoute Sample.nanRoute = Normal tt
  ∧ ¬ within (-180)%float 180%float nan
  ∧ ¬ valid_coordinates Sample.nanRoute
  ∧ ¬ keyed_and_valid (RoutesManager.constructor [Sample.nanRoute]).2.
Proof.
  assert (¬ within (-180)%float 180%float nan) as Hnan.
  { intros [H _]. vm_compute in H. discriminate H. }
  assert (¬ valid_coordinates Sample.nanRoute) as Hinvalid.
  { intros (coords & [= <-] & _ & Hall).
    apply Forall_cons_1 in Hall as [(lng & lat & [= <- <-] & Hlng & _) _]. done. }
  split_and!; [by vm_compute|by vm_compute|done|done|].
  intros Hinv. apply Hinvalid.
  apply (Hinv (id Sample.nanRoute)). left.
Qed.

(** ** C10: reprojection of a feature collection *)

Section Reprojection.
Import GeoTransform.
Variable proj4 : number → number → Completion (number * number).
Variable numberToString : number → string.

Local Abbreviation transformFeature := (transformFeature proj4 numberToString).
Local Abbreviation transformPolygonCoordinates :=
  (transformPolygonCoordinates proj4 numberToString).


(** A traversal whose callback never throws never throws, and visits the
    elements in order. *)
Lemma mapM_total {A B} (f : A → Completion B) (g : A → B) (l : list A) :
  (∀ a, f a = Normal (g a)) → mapM f l = Normal (g <$> l).
Proof.
  intros Hf. induction l as [|a l IH]; simpl; [done|].
  by rewrite Hf, IH.
Qed.

(** The callback of [features.map] never throws. *)
Lemma transformFeature_Normal (feature : Feature) :
  ∃ result, transformFeature feature = Normal result.
Proof.
  unfold GeoTransform.transformFeature, try_catch.
  repeat case_match; simplify_eq; by eexists.
Qed.


Lemma transformFeature_dropped (feature : Feature) :
  g_type (f_geometry feature) = "Polygon" →
  throws (transformPolygonCoordinates (g_coordinates (f_geometry feature))) →
  transformFeature feature = Normal None.
Proof.
  intros Htag%String.eqb_eq [e He].
  unfold GeoTransform.transformFeature. by rewrite Htag, He.
Qed.


(** The array [features.map] returns, before [filter]: one entry per
    input feature, in order, each the normal result of the callback. *)
Lemma mapM_transformFeature (features : list Feature) :
  ∃ mapped,
    mapM transformFeature features = Normal mapped
    ∧ List.length mapped = List.length features
    ∧ ∀ (n : nat) feature, features !! n = Some feature →
        ∃ result, mapped !! n = Some result
                  ∧ transformFeature feature = Normal result.
Proof.
  set (g := λ feature, match transformFeature feature with
                       | Normal result => result
                       | Throw _ => None
                       end).
  assert (∀ feature, transformFeature feature = Normal (g feature)) as Hg.
  { intros feature. unfold g.
    by destruct (transformFeature_Normal feature) as [result ->]. }
  exists (g <$> features). split_and!.
  - by apply mapM_total.
  - by rewrite length_fmap.
  - intros n feature Hn. exists (g feature).
    by rewrite list_lookup_fmap, Hn.
Qed.

(** [transformGeoJSON3347To4326] completes normally. *)
Lemma transformGeoJSON3347To4326_Normal (geoJSON : FeatureCollection) :
  ∃ out, transformGeoJSON3347To4326 proj4 numberToString geoJSON = Normal out.
Proof.
  destruct (mapM_transformFeature (fc_features geoJSON)) as (mapped & Hmap & _).
  unfold transformGeoJSON3347To4326. rewrite Hmap. by eexists.
Qed.

End Reprojection.



(** ** C6: responses that are not ok *)

Section Fetching.
Variable proj4 : number → number → Completion (number * number).
Variable numberToString : number → string.
Variable fetch : string → Completion (Response FeatureCollection).

Lemma contains_suffix (prefix s : string) : contains (prefix +:+ s) s.
Proof.
  exists prefix, "". f_equal. induction s as [|c s IH]; [done|].
  change (String c s = String c (s +:+ "")). by rewrite <- IH.
Qed.

(** The debugging blocks of [loadOttawaDABoundaries] throw type errors only. *)
Lemma peekFirstCoordinate_no_Error (collection : FeatureCollection) message :
  GeoTransform.peekFirstCoordinate collection ≠ Throw (Error message).
Proof.
  unfold GeoTransform.peekFirstCoordinate, GeoTransform.index0, bind.
  repeat case_match; simplify_eq; done.
Qed.

Lemma loadOttawaDABoundaries_not_ok response :
  fetch "/ottawa_da_boundaries.geojson" = Normal response →
  ok response = false →
  GeoTransform.loadOttawaDABoundaries proj4 numberToString fetch
    = Throw (Error ("Failed to load DA boundaries: " +:+ statusText response)).
Proof.
  intros Hfetch Hok. unfold GeoTransform.loadOttawaDABoundaries.
  rewrite Hfetch. simpl. by rewrite Hok.
Qed.

Lemma loadOttawaDABoundaries_ok response message :
  fetch "/ottawa_da_boundaries.geojson" = Normal response →
  ok response = true →
  GeoTransform.loadOttawaDABoundaries proj4 numberToString fetch
    ≠ Throw (Error message).
Proof.
  intros Hfetch Hok. unfold GeoTransform.loadOttawaDABoundaries.
  rewrite Hfetch. simpl. rewrite Hok. simpl.
  unfold json. destruct (body response) as [geoJSON|]; simpl; [|done].
  pose proof (peekFirstCoordinate_no_Error geoJSON message) as Hpeek.
  destruct (GeoTransform.peekFirstCoordinate geoJSON) as [[]|e]; simpl;
    [|intros [= ->]; by destruct Hpeek].
  destruct (transformGeoJSON3347To4326_Normal proj4 numberToString geoJSON)
    as [out ->]. simpl.
  pose proof (peekFirstCoordinate_no_Error out message) as Hpeek'.
  destruct (GeoTransform.peekFirstCoordinate out) as [[]|e]; simpl;
    [done|intros [= ->]; by destruct Hpeek'].
Qed.

Lemma fetchGeoJSON_not_ok url defaultColor defaultLineWidth response :
  fetch url = Normal response →
  ok response = false →
  GeoJsonUtils.fetchGeoJSON fetch url defaultColor defaultLineWidth
    = Throw (Error ("Failed to fetch GeoJSON: " +:+ statusText response)).
Proof.
  intros Hfetch Hok. unfold GeoJsonUtils.fetchGeoJSON.
  rewrite Hfetch. simpl. by rewrite Hok.
Qed.

Lemma fetchGeoJSON_ok url defaultColor defaultLineWidth response s :
  fetch url = Normal response →
  ok response = true →
  GeoJsonUtils.fetchGeoJSON fetch url defaultColor defaultLineWidth
    ≠ Throw (Error ("Failed to fetch GeoJSON: " +:+ s)).
Proof.
  intros Hfetch Hok. unfold GeoJsonUtils.fetchGeoJSON.
  rewrite Hfetch. simpl. rewrite Hok. simpl.
  unfold json. destruct (body response) as [geoJSON|]; simpl; [|done].
  case_match; [|done]. by intros [= Hmessage].
Qed.

End Fetching.

(** C6.  When the response to the request is not ok,
    [loadOttawaDABoundaries] and [fetchGeoJSON] throw an [Error] whose
    message ends with, and so contains, the status text of the response.
    When the response is ok, [loadOttawaDABoundaries] throws no [Error] at
    all (it can still fail with the [SyntaxError] of a body that is not
    JSON or with a [TypeError]), and [fetchGeoJSON] throws no
    ['Failed to fetch GeoJSON: ...'] error, whatever the text after the
    colon. *)
Theorem C6_not_ok_response_throws_status_text :
  ∀ (proj4 : number → number → Completion (number * number))
    (numberToString : number → string)
    (fetch : string → Completion (Response FeatureCollection))
    (url : string) (defaultColor : option string) (defaultLineWidth : option number)
    (response : Response FeatureCollection),
    (fetch "/ottawa_da_boundaries.geojson" = Normal response →
       (ok response = false →
          ∃ message,
            GeoTransform.loadOttawaDABoundaries proj4 numberToString fetch
              = Throw (Error message)
            ∧ contains message (statusText response))
       ∧ (ok response = true →
            ∀ message,
              GeoTransform.loadOttawaDABoundaries proj4 numberToString fetch
                ≠ Throw (Error message)))
    ∧ (fetch url = Normal response →
         (ok response = false →
            ∃ message,
              GeoJsonUtils.fetchGeoJSON fetch url defaultColor defaultLineWidth
                = Throw (Error message)
              ∧ contains message (statusText response))
         ∧ (ok response = true →
              ∀ s,
                GeoJsonUtils.fetchGeoJSON fetch url defaultColor defaultLineWidth
                  ≠ Throw (Error ("Failed to fetch GeoJSON: " +:+ s)))).
Proof.
  intros proj4 numberToString fetch url defaultColor defaultLineWidth response.
  split; intros Hfetch; split; intros Hok.
  - eexists. split; [by apply loadOttawaDABoundaries_not_ok|apply contains_suffix].
  - intros message. by apply loadOttawaDABoundaries_ok with response.
  - eexists. split; [by apply fetchGeoJSON_not_ok|apply contains_suffix].
  - intros s. by apply fetchGeoJSON_ok with response.
Qed.

Lemma C6_witness :
  (∃ message,
     GeoTransform.loadOttawaDABoundaries Sample.shift Sample.showNumber
       (Sample.respond Sample.notFound) = Throw (Error message)
     ∧ contains message "Not Found")
  ∧ (∃ message,
       GeoJsonUtils.fetchGeoJSON (Sample.respond Sample.notFound) "/api/routes"
         None None = Throw (Error message)
       ∧ contains message "Not Found")
  ∧ GeoJsonUtils.fetchGeoJSON (Sample.respond Sample.found) "/api/routes" None None
    ≠ Throw (Error "Failed to fetch GeoJSON: OK").
Proof.
  destruct (C6_not_ok_response_throws_status_text Sample.shift Sample.showNumber
              (Sample.respond Sample.notFound) "/api/routes" None None
              Sample.notFound) as [Hload Hfetch].
  destruct (C6_not_ok_response_throws_status_text Sample.shift Sample.showNumber
              (Sample.respond Sample.found) "/api/routes" None None
              Sample.found) as [_ Hfound].
  split_and!.
  - exact (proj1 (Hload eq_refl) eq_refl).
  - exact (proj1 (Hfetch eq_refl) eq_refl).
  - exact (proj2 (Hfound eq_refl) eq_refl "OK").
Defined.

(** ** C7: the style of the map *)

(** C7.  When the map does not exist yet and its container is mounted, the
    mount effect constructs the map, with the value of [VITE_MAP_STYLE_URL]
    as its style when the variable is set and with
    ['https://tiles.openfreemap.org/styles/bright'] when it is unset; in
    the other cases it constructs nothing. *)
Theorem C7_map_style_from_environment :
  ∀ styleUrl : option string,
    (∃ warnings options,
       MapView.createMap false true styleUrl = Some (warnings, options)
       ∧ (∀ url, styleUrl = Some url → MapView.style options = url)
       ∧ (styleUrl = None →
            MapView.style options = "https://tiles.openfreemap.org/styles/bright"))
    ∧ (∀ containerMounted, MapView.createMap true containerMounted styleUrl = None)
    ∧ (∀ mapExists, MapView.createMap mapExists false styleUrl = None).
Proof.
  intros styleUrl. split_and!.
  - eexists _, _. split; [reflexivity|]. simpl. split.
    + by intros url ->.
    + by intros ->.
  - done.
  - by intros [].
Qed.

Lemma C7_witness :
  ∃ warnings options,
    MapView.createMap false true (Some "https://example.org/style.json")
      = Some (warnings, options)
    ∧ MapView.style options = "https://example.org/style.json".
Proof.
  destruct (C7_map_style_from_environment (Some "https://example.org/style.json"))
    as [(warnings & options & Hrun & Hset & _) _].
  exists warnings, options. split; [exact Hrun|exact (Hset _ eq_refl)].
Defined.

(* ===================================================================== *)
(** * Further properties of the registry                                  *)
(* ===================================================================== *)

Section MoreJsMapFacts.
Context {V : Type}.
Implicit Types (m : JsMap.t V) (k j : string) (v : V).

Lemma has_app_singleton j k v m :
  JsMap.has j (m ++ [(k, v)])%list = JsMap.has j m || String.eqb j k.
Proof.
  unfold JsMap.has. induction m as [|[k' v'] m IH]; simpl.
  - by destruct (String.eqb j k).
  - by destruct (String.eqb j k').
Qed.

Lemma delete_app_singleton k v m :
  JsMap.has k m = false → JsMap.delete k (m ++ [(k, v)])%list = m.
Proof.
  rewrite has_false_get.
  induction m as [|[k' v'] m IH]; simpl.
  - by rewrite String.eqb_refl.
  - destruct (String.eqb k k'); [done|]. intros H. by rewrite IH.
Qed.

Lemma get_elem_of_NoDup k v m :
  NoDup (JsMap.keys m) → (k, v) ∈ m → JsMap.get k m = Some v.
Proof.
  unfold JsMap.keys. induction m as [|[k' v'] m IH]; simpl.
  - by intros _ ?%elem_of_nil.
  - intros [Hnot Hnd]%NoDup_cons [[= -> ->]|Hin]%elem_of_cons.
    + by rewrite String.eqb_refl.
    + destruct (String.eqb k k') eqn:E; [|by apply IH].
      apply String.eqb_eq in E as <-. destruct Hnot.
      apply list_elem_of_fmap. by exists (k, v).
Qed.

Lemma set_same k v m : JsMap.get k m = Some v → JsMap.set k v m = m.
Proof.
  induction m as [|[k' v'] m IH]; simpl; [done|].
  destruct (String.eqb k k') eqn:E.
  - apply String.eqb_eq in E as <-. by intros [= ->].
  - intros H. by rewrite IH.
Qed.

Lemma set_set k v w m : JsMap.set k v (JsMap.set k w m) = JsMap.set k v m.
Proof.
  induction m as [|[k' v'] m IH]; simpl.
  - by rewrite String.eqb_refl.
  - destruct (String.eqb k k') eqn:E; simpl.
    + by rewrite String.eqb_refl.
    + by rewrite E, IH.
Qed.

Lemma size_delete_present k m :
  NoDup (JsMap.keys m) → JsMap.has k m = true →
  S (JsMap.size (JsMap.delete k m)) = JsMap.size m.
Proof.
  unfold JsMap.keys, JsMap.size.
  induction m as [|[k' v'] m IH]; simpl.
  - by intros _ ?.
  - intros [Hnot Hnd]%NoDup_cons. unfold JsMap.has. simpl.
    destruct (String.eqb k k') eqn:E.
    + intros _. apply String.eqb_eq in E as <-.
      rewrite delete_absent; [done|].
      destruct (JsMap.has k m) eqn:Hhas; [|done].
      apply has_true_keys in Hhas. by destruct Hnot.
    + intros Hhas. simpl. f_equal. by apply IH.
Qed.

Lemma size_delete_le k m : (JsMap.size (JsMap.delete k m) ≤ JsMap.size m)%nat.
Proof.
  unfold JsMap.size. induction m as [|[k' v'] m IH]; simpl; [done|].
  destruct (String.eqb k k'); simpl; lia.
Qed.

Lemma get_Some_elem_of k v m : JsMap.get k m = Some v → (k, v) ∈ m.
Proof.
  induction m as [|[k' v'] m IH]; simpl; [done|].
  destruct (String.eqb k k') eqn:E.
  - apply String.eqb_eq in E as <-. intros [= ->]. left.
  - intros H. right. by apply IH.
Qed.

End MoreJsMapFacts.

Section Batches.
Import RoutesManager.
Implicit Types (routes : Registry) (route : Route) (batch : list Route).

(** The entries a batch contributes, in the order of the batch. *)
Local Abbreviation entries batch := ((λ route, (id route, route)) <$> batch).

Lemma addRoute_Normal_inv route routes routes' :
  addRoute route routes = (Normal tt, routes') →
  id route ≠ "" ∧ JsMap.has (id route) routes = false
  ∧ validateRoute route = Normal tt
  ∧ routes' = (routes ++ [(id route, route)])%list.
Proof.
  intros Hadd.
  destruct (addRoute_cases route routes)
    as [[_ H]|[(_ & _ & e' & H)|[(_ & _ & e' & _ & H)|(Hid & Hhas & Hval & H)]]];
    [congruence..|].
  rewrite H in Hadd. injection Hadd as <-. by rewrite set_absent.
Qed.

Lemma addRoute_Throw_inv route routes e routes' :
  addRoute route routes = (Throw e, routes') → routes' = routes.
Proof.
  intros Hadd.
  destruct (addRoute_cases route routes)
    as [[_ H]|[(_ & _ & e' & H)|[(_ & _ & e' & _ & H)|(_ & _ & _ & H)]]];
    congruence.
Qed.

Lemma addRoutes_cons route batch routes :
  addRoutes (route :: batch) routes =
    match addRoute route routes with
    | (Normal _, routes1) => addRoutes batch routes1
    | (Throw e, routes1) => (Throw e, routes1)
    end.
Proof. done. Qed.

End Batches.

Section BatchFacts.
Import RoutesManager.
Implicit Types (routes : Registry) (route : Route) (batch : list Route).

Local Abbreviation entries batch := ((λ route, (id route, route)) <$> batch).

Lemma addRoutes_Throw_inv batch routes e routes' :
  addRoutes batch routes = (Throw e, routes') →
  ∃ done route rest,
    batch = (done ++ route :: rest)%list
    ∧ routes' = (routes ++ entries done)%list
    ∧ addRoutes done routes = (Normal tt, routes')
    ∧ addRoute route routes' = (Throw e, routes').
Proof.
  revert routes. induction batch as [|route batch IH]; intros routes; [done|].
  rewrite addRoutes_cons.
  destruct (addRoute route routes) as [[[]|e1] routes1] eqn:Hadd.
  - apply addRoute_Normal_inv in Hadd as Hinv. destruct Hinv as (_ & _ & _ & ->).
    intros (done & bad & rest & -> & -> & Hdone & Hbad)%IH.
    exists (route :: done), bad, rest. split_and!; try done.
    + by rewrite <- (assoc_L (++)).
    + rewrite addRoutes_cons, Hadd. exact Hdone.
  - intros [= <- <-]. apply addRoute_Throw_inv in Hadd as Heq. subst routes1.
    exists [], route, batch. split_and!; try done. simpl. by rewrite app_nil_r.
Qed.

Lemma addRoutes_Normal_iff batch routes routes' :
  addRoutes batch routes = (Normal tt, routes')
  ↔ Forall (λ route, id route ≠ "" ∧ validateRoute route = Normal tt) batch
    ∧ NoDup (id <$> batch)
    ∧ (∀ route, route ∈ batch → JsMap.has (id route) routes = false)
    ∧ routes' = (routes ++ entries batch)%list.
Proof.
  revert routes. induction batch as [|route batch IH]; intros routes.
  - simpl. rewrite app_nil_r. split.
    + intros [= <-]. split_and!; try done; [constructor|]. by intros r ?%elem_of_nil.
    + by intros (_ & _ & _ & ->).
  - rewrite addRoutes_cons, Forall_cons, fmap_cons, NoDup_cons.
    destruct (addRoute route routes) as [[[]|e1] routes1] eqn:Hadd.
    + apply addRoute_Normal_inv in Hadd as (Hid & Hhas & Hval & ->).
      rewrite IH. clear IH. simpl. rewrite <- (assoc_L (++)). simpl.
      split.
      * intros (Hall & Hnd & Hfresh & ->). split_and!; try done.
        -- intros Hin. apply list_elem_of_fmap in Hin as (r & Heq & Hin).
           specialize (Hfresh r Hin). rewrite has_app_singleton in Hfresh.
           apply orb_false_iff in Hfresh as [_ Hne%String.eqb_neq]. congruence.
        -- intros r [->|Hin]%elem_of_cons; [done|].
           specialize (Hfresh r Hin). rewrite has_app_singleton in Hfresh.
           by apply orb_false_iff in Hfresh as [? _].
      * intros ((_ & Hall) & (Hnotin & Hnd) & Hfresh & ->). split_and!; try done.
        intros r Hin. rewrite has_app_singleton. apply orb_false_iff.
        split; [apply Hfresh; by right|]. apply String.eqb_neq.
        intros Heq. apply Hnotin. apply list_elem_of_fmap. by exists r.
    + split; [done|]. intros ([[Hid Hval] _] & _ & Hfresh & _).
      assert (JsMap.has (id route) routes = false) as Hhas by (apply Hfresh; left).
      pose proof (addRoute_fresh route routes Hid Hhas Hval). congruence.
Qed.

Lemma values_entries batch : JsMap.values (entries batch) = batch.
Proof.
  unfold JsMap.values.
  induction batch as [|r batch IH]; csimpl; [done|]. by f_equal.
Qed.

Lemma keys_entries batch : JsMap.keys (entries batch) = id <$> batch.
Proof.
  unfold JsMap.keys.
  induction batch as [|r batch IH]; csimpl; [done|]. by f_equal.
Qed.

End BatchFacts.

(** X1.  A batch is not atomic.  When [addRoutes] throws, the batch splits
    into the routes before the offending one, the offending route and the
    rest: the routes before it have been inserted, in order, after the
    routes already stored; the error is the one [addRoute] throws on the
    offending route; and nothing of the rest has been inserted. *)
Theorem X1_addRoutes_failure_keeps_prefix :
  ∀ (batch : list Route) (routes routes' : RoutesManager.Registry) (e : Thrown),
    RoutesManager.addRoutes batch routes = (Throw e, routes') →
    ∃ done route rest,
      batch = (done ++ route :: rest)%list
      ∧ routes' = (routes ++ ((λ route, (id route, route)) <$> done))%list
      ∧ RoutesManager.addRoutes done routes = (Normal tt, routes')
      ∧ RoutesManager.addRoute route routes' = (Throw e, routes').
Proof. intros batch routes routes' e. apply addRoutes_Throw_inv. Qed.

Lemma X1_witness :
  (RoutesManager.addRoutes [Sample.route1; Sample.onePoint; Sample.farEast]
     (@JsMap.empty Route)).2 = [(id Sample.route1, Sample.route1)].
Proof.
  destruct (RoutesManager.addRoutes [Sample.route1; Sample.onePoint; Sample.farEast]
              (@JsMap.empty Route)) as [[[]|e] routes'] eqn:E.
  - vm_compute in E. discriminate E.
  - destruct (X1_addRoutes_failure_keeps_prefix _ _ _ _ E)
      as (done & route & rest & Hsplit & -> & Hdone & Hbad).
    destruct done as [|r0 [|r1 done]].
    + vm_compute in Hbad. injection Hsplit as <- _. vm_compute in Hbad.
      discriminate Hbad.
    + by injection Hsplit as <- _.
    + injection Hsplit as <- <- _. vm_compute in Hdone. discriminate Hdone.
Defined.

(** X2.  [addRoutes] completes normally exactly when every route of the
    batch has a non-empty id and passes [validateRoute], the ids of the
    batch are pairwise distinct, and none of them is stored already; the
    registry is then the old one followed by the batch, in order. *)
Theorem X2_addRoutes_succeeds_iff :
  ∀ (batch : list Route) (routes routes' : RoutesManager.Registry),
    RoutesManager.addRoutes batch routes = (Normal tt, routes')
    ↔ Forall (λ route, id route ≠ ""
                       ∧ RoutesManager.validateRoute route = Normal tt) batch
      ∧ NoDup (id <$> batch)
      ∧ (∀ route, route ∈ batch → JsMap.has (id route) routes = false)
      ∧ routes' = (routes ++ ((λ route, (id route, route)) <$> batch))%list.
Proof. intros batch routes routes'. apply addRoutes_Normal_iff. Qed.

(** X3.  A constructor that completes normally stores exactly the initial
    routes: [getAllRoutes] returns them in the order given, under their
    own ids. *)
Theorem X3_constructor_stores_initial_routes :
  ∀ (initialRoutes : list Route) (routes : RoutesManager.Registry),
    RoutesManager.constructor initialRoutes = (Normal tt, routes) →
    RoutesManager.getAllRoutes routes = (Normal initialRoutes, routes)
    ∧ JsMap.keys routes = id <$> initialRoutes
    ∧ NoDup (id <$> initialRoutes).
Proof.
  intros initialRoutes routes (_ & Hnd & _ & ->)%addRoutes_Normal_iff.
  simpl. unfold RoutesManager.getAllRoutes.
  by rewrite values_entries, keys_entries.
Qed.

Lemma X3_witness :
  RoutesManager.getAllRoutes
    (RoutesManager.constructor [Sample.route1; Sample.overriding]).2
  = (Normal [Sample.route1; Sample.overriding],
     (RoutesManager.constructor [Sample.route1; Sample.overriding]).2).
Proof.
  apply (X3_constructor_stores_initial_routes [Sample.route1; Sample.overriding]).
  by vm_compute.
Defined.

Section RemovalFacts.
Import RoutesManager.

Lemma removeRoutes_spec (ids : list string) (routes : Registry) :
  ∃ routes',
    removeRoutes ids routes = (Normal tt, routes')
    ∧ (∀ i, i ∈ ids → JsMap.get i routes' = None)
    ∧ (∀ j, j ∉ ids → JsMap.get j routes' = JsMap.get j routes)
    ∧ (JsMap.size routes' ≤ JsMap.size routes)%nat.
Proof.
  revert routes. induction ids as [|i ids IH]; intros routes.
  - exists routes. split_and!; [done| |done|done]. by intros i ?%elem_of_nil.
  - destruct (IH (JsMap.delete i routes)) as (routes' & Hrun & Hgone & Hkept & Hsize).
    exists routes'. split_and!.
    + simpl. unfold_method. exact Hrun.
    + intros k [->|Hin]%elem_of_cons; [|by apply Hgone].
      destruct (decide (i ∈ ids)) as [Hi|Hi]; [by apply Hgone|].
      rewrite Hkept by done. apply get_delete_eq.
    + intros j [Hne Hj]%not_elem_of_cons.
      rewrite Hkept by done. by apply get_delete_ne.
    + etrans; [exact Hsize|]. apply size_delete_le.
Qed.

Lemma mergeRoute_noUpdates (route : Route) :
  mergeRoute route noUpdates (id route) = route.
Proof. by destruct route. Qed.

Lemma mergeRoute_idempotent (route : Route) (updates : RouteUpdates) (i : string) :
  mergeRoute (mergeRoute route updates i) updates i = mergeRoute route updates i.
Proof.
  unfold mergeRoute. simpl.
  by destruct (u_name updates), (u_coordinates updates), (u_color updates),
    (u_lineWidth updates), (u_properties updates).
Qed.

End RemovalFacts.

(** X4.  [removeRoutes] never throws; afterwards no route is stored under
    any of the given ids, the routes stored under the other ids are
    untouched, and ids that were not stored (or are given twice) are
    passed over silently. *)
Theorem X4_removeRoutes_removes_exactly_the_ids :
  ∀ (ids : list string) (routes : RoutesManager.Registry),
    ∃ routes',
      RoutesManager.removeRoutes ids routes = (Normal tt, routes')
      ∧ (∀ i, i ∈ ids → JsMap.get i routes' = None)
      ∧ (∀ j, j ∉ ids → JsMap.get j routes' = JsMap.get j routes)
      ∧ (JsMap.size routes' ≤ JsMap.size routes)%nat.
Proof. intros ids routes. apply removeRoutes_spec. Qed.

(** X5.  Removing a route that was just added undoes the insertion: when
    [addRoute(route)] completes normally, [removeRoute(route.id)] returns
    [true] and leaves the registry exactly as it was before the
    insertion. *)
Theorem X5_removeRoute_undoes_addRoute :
  ∀ (route : Route) (routes routes' : RoutesManager.Registry),
    RoutesManager.addRoute route routes = (Normal tt, routes') →
    RoutesManager.removeRoute (id route) routes' = (Normal true, routes).
Proof.
  intros route routes routes' (_ & Hhas & _ & ->)%addRoute_Normal_inv.
  unfold RoutesManager.removeRoute, RoutesManager.routes_delete.
  rewrite has_app_singleton, String.eqb_refl, orb_true_r.
  by rewrite delete_app_singleton.
Qed.

Lemma X5_witness :
  RoutesManager.removeRoute "route-1"
    (RoutesManager.addRoute Sample.route1 [(id Sample.overriding, Sample.overriding)]).2
  = (Normal true, [(id Sample.overriding, Sample.overriding)]).
Proof.
  apply (X5_removeRoute_undoes_addRoute Sample.route1). by vm_compute.
Defined.

(** X6.  [getRouteCount] follows the mutations: a successful [addRoute]
    raises it by one, a successful [updateRoute] leaves it as it is,
    [removeRoute] lowers it by one when the id was stored and leaves it
    as it is otherwise, and after [clearAll] it is zero.  (No id is stored
    twice in a registry built by the operations of the class.) *)
Theorem X6_getRouteCount_follows_mutations :
  ∀ routes : RoutesManager.Registry,
    NoDup (JsMap.keys routes) →
    (∀ route routes',
       RoutesManager.addRoute route routes = (Normal tt, routes') →
       (RoutesManager.getRouteCount routes').1
         = Normal (S (JsMap.size routes)))
    ∧ (∀ i updates routes',
         RoutesManager.updateRoute i updates routes = (Normal tt, routes') →
         (RoutesManager.getRouteCount routes').1 = Normal (JsMap.size routes))
    ∧ (∀ i removed routes',
         RoutesManager.removeRoute i routes = (Normal removed, routes') →
         (RoutesManager.getRouteCount routes').1
           = Normal (if removed then pred (JsMap.size routes)
                     else JsMap.size routes)
         ∧ (removed = true → (0 < JsMap.size routes)%nat))
    ∧ (RoutesManager.getRouteCount (RoutesManager.clearAll routes).2).1 = Normal 0%nat.
Proof.
  intros routes Hnd. split_and!.
  - intros route routes' (_ & _ & _ & ->)%addRoute_Normal_inv.
    simpl. f_equal. unfold JsMap.size. rewrite length_app. simpl. lia.
  - intros i updates routes' Hrun.
    destruct (updateRoute_cases i updates routes)
      as [(_ & e & He)|[(existing & e & _ & _ & He)|(existing & Hget & _ & Hok)]];
      [congruence..|].
    rewrite Hok in Hrun. injection Hrun as <-. simpl. f_equal.
    assert (JsMap.has i routes = true) as Hhas.
    { apply has_true_get. by exists existing. }
    pose proof (keys_set_present i (RoutesManager.mergeRoute existing updates i)
                  routes Hhas) as Hkeys.
    unfold JsMap.size. unfold JsMap.keys in Hkeys.
    by rewrite <- (length_fmap fst), Hkeys, length_fmap.
  - intros i removed routes' [= <- <-]. simpl.
    destruct (JsMap.has i routes) eqn:Hhas.
    + pose proof (size_delete_present i routes Hnd Hhas) as Hsize.
      split; [f_equal; lia|intros _; lia].
    + by rewrite delete_absent.
  - done.
Qed.

Lemma X6_witness :
  (RoutesManager.getRouteCount
     (RoutesManager.removeRoute "route-1"
        [(id Sample.route1, Sample.route1);
         (id Sample.overriding, Sample.overriding)]).2).1 = Normal 1%nat.
Proof.
  assert (NoDup (JsMap.keys [(id Sample.route1, Sample.route1);
                             (id Sample.overriding, Sample.overriding)])) as Hnd.
  { apply NoDup_cons. split; [|apply NoDup_singleton].
    by intros ?%list_elem_of_singleton. }
  destruct (X6_getRouteCount_follows_mutations _ Hnd) as (_ & _ & Hremove & _).
  exact (proj1 (Hremove "route-1" true _ eq_refl)).
Defined.

(** X7.  In a registry built by the operations of the class, every route
    that [getAllRoutes] lists is the route [getRoute] returns for its id,
    and [hasRoute] answers [true] for it; neither query changes the
    registry. *)
Theorem X7_listed_routes_are_found_by_id :
  ∀ (routes : RoutesManager.Registry) (route : Route) (listed : list Route),
    keyed_and_validated routes →
    RoutesManager.getAllRoutes routes = (Normal listed, routes) →
    route ∈ listed →
    RoutesManager.getRoute (id route) routes = (Normal (Some route), routes)
    ∧ RoutesManager.hasRoute (id route) routes = (Normal true, routes).
Proof.
  intros routes route listed [Hnd Hkeyed] [= <-] Hin.
  unfold JsMap.values in Hin.
  apply list_elem_of_fmap in Hin as ([k r] & -> & Hin). simpl.
  destruct (Hkeyed k r Hin) as [<- _].
  pose proof (get_elem_of_NoDup _ _ _ Hnd Hin) as Hget.
  unfold RoutesManager.getRoute, RoutesManager.hasRoute,
    RoutesManager.routes_get, RoutesManager.routes_has, JsMap.has.
  by rewrite Hget.
Qed.

Lemma X7_witness :
  RoutesManager.getRoute "route-5"
    (RoutesManager.constructor [Sample.route1; Sample.overriding]).2
  = (Normal (Some Sample.overriding),
     (RoutesManager.constructor [Sample.route1; Sample.overriding]).2).
Proof.
  refine (proj1 (X7_listed_routes_are_found_by_id
                   (RoutesManager.constructor [Sample.route1; Sample.overriding]).2
                   Sample.overriding [Sample.route1; Sample.overriding] _ _ _)).
  - apply (proj1 registry_maintains_validated).
  - reflexivity.
  - right. left.
Defined.

(** X8.  In a registry built by the operations of the class, an update
    that names no field changes nothing: [updateRoute(id, {})] on a stored
    id completes normally and leaves the registry as it was.  And any
    update that completes normally can be repeated: the second call
    completes normally too and changes nothing. *)
Theorem X8_updateRoute_noop_and_idempotent :
  ∀ (routes : RoutesManager.Registry) (i : string),
    keyed_and_validated routes →
    (JsMap.has i routes = true →
       RoutesManager.updateRoute i noUpdates routes = (Normal tt, routes))
    ∧ (∀ updates routes',
         RoutesManager.updateRoute i updates routes = (Normal tt, routes') →
         RoutesManager.updateRoute i updates routes' = (Normal tt, routes')).
Proof.
  intros routes i [Hnd Hkeyed]. split.
  - intros [existing Hget]%has_true_get.
    destruct (Hkeyed i existing (get_Some_elem_of _ _ _ Hget)) as [<- Hval].
    rewrite (updateRoute_valid _ _ _ existing Hget);
      rewrite mergeRoute_noUpdates; [|done].
    by rewrite set_same.
  - intros updates routes' Hrun.
    destruct (updateRoute_cases i updates routes)
      as [(_ & e & He)|[(existing & e & _ & _ & He)|(existing & Hget & Hval & Hok)]];
      [congruence..|].
    rewrite Hok in Hrun. injection Hrun as <-.
    rewrite (updateRoute_valid _ _ _ (RoutesManager.mergeRoute existing updates i));
      rewrite ?mergeRoute_idempotent; [|apply get_set_eq|done].
    by rewrite set_set.
Qed.

Lemma X8_witness :
  RoutesManager.updateRoute "route-1" noUpdates
    (RoutesManager.constructor [Sample.route1; Sample.overriding]).2
  = (Normal tt, (RoutesManager.constructor [Sample.route1; Sample.overriding]).2).
Proof.
  refine (proj1 (X8_updateRoute_noop_and_idempotent
                   (RoutesManager.constructor [Sample.route1; Sample.overriding]).2
                   "route-1" _) _).
  - apply (proj1 registry_maintains_validated).
  - reflexivity.
Defined.

(* ===================================================================== *)
(** * Searching the registry                                              *)
(* ===================================================================== *)

Section SearchFacts.
Import RoutesManager.

Lemma prefix_refl (s : string) : String.prefix s s = true.
Proof.
  induction s as [|c s IH]; simpl; [done|].
  destruct (Ascii.ascii_dec c c) as [_|Hne]; [done|by destruct Hne].
Qed.

Lemma prefix_empty (s : string) : String.prefix "" s = true.
Proof. by destruct s. Qed.

Lemma includes_refl (s : string) : includes s s = true.
Proof. destruct s; cbn [includes]; by rewrite prefix_refl. Qed.

Lemma includes_empty (s : string) : includes s "" = true.
Proof. destruct s; cbn [includes]; by rewrite prefix_empty. Qed.

Lemma filterM_total {A} (f : A → Completion bool) (g : A → bool) (l : list A) :
  (∀ a, a ∈ l → f a = Normal (g a)) → filterM f l = Normal (List.filter g l).
Proof.
  induction l as [|a l IH]; intros Hf; simpl; [done|].
  rewrite (Hf a) by left. simpl. rewrite IH; [done|].
  intros x Hx. apply Hf. by right.
Qed.

Lemma filterM_throws {A} (f : A → Completion bool) (l : list A) (e : Thrown) :
  (∀ a e', f a = Throw e' → e' = e) →
  Exists (λ a, f a = Throw e) l → filterM f l = Throw e.
Proof.
  intros Hsame. induction 1 as [a l Ha|a l Hex IH]; simpl.
  - by rewrite Ha.
  - destruct (f a) as [keep|e'] eqn:Ha; simpl.
    + by rewrite IH.
    + by rewrite (Hsame a e' Ha).
Qed.

Lemma filter_sublist {A} (g : A → bool) (l : list A) : List.filter g l `sublist_of` l.
Proof.
  induction l as [|a l IH]; simpl; [done|].
  destruct (g a); by constructor.
Qed.

Lemma elem_of_filter_iff {A} (g : A → bool) (l : list A) (a : A) :
  a ∈ List.filter g l ↔ a ∈ l ∧ g a = true.
Proof. rewrite !list_elem_of_In. apply filter_In. Qed.

End SearchFacts.

(** X9.  When every stored route has a name, [getRoutesByName] completes
    normally, leaves the registry as it is, and returns, in the order of
    insertion, exactly the stored routes whose lower-cased name contains
    the lower-cased search term.  In particular every stored route is
    found by its own name, and a search term that lower-cases to the empty
    string finds every route. *)
Theorem X9_getRoutesByName_finds_by_substring :
  ∀ (toLowerCase : string → string) (routes : RoutesManager.Registry) (term : string),
    (∀ route, route ∈ JsMap.values routes → is_Some (name route)) →
    ∃ found,
      RoutesManager.getRoutesByName toLowerCase term routes = (Normal found, routes)
      ∧ found `sublist_of` JsMap.values routes
      ∧ (∀ route routeName, name route = Some routeName →
           (route ∈ found
            ↔ route ∈ JsMap.values routes
              ∧ includes (toLowerCase routeName) (toLowerCase term) = true))
      ∧ (∀ route, route ∈ JsMap.values routes →
           name route = Some term → route ∈ found)
      ∧ (toLowerCase term = "" → found = JsMap.values routes).
Proof.
  intros toLowerCase routes term Hnamed.
  set (g := λ route, match name route with
                     | Some routeName =>
                         includes (toLowerCase routeName) (toLowerCase term)
                     | None => false
                     end).
  exists (List.filter g (JsMap.values routes)).
  assert (∀ route routeName, name route = Some routeName →
            (route ∈ List.filter g (JsMap.values routes)
             ↔ route ∈ JsMap.values routes
               ∧ includes (toLowerCase routeName) (toLowerCase term) = true))
    as Hiff.
  { intros route routeName Hname. rewrite elem_of_filter_iff. unfold g.
    by rewrite Hname. }
  split_and!.
  - unfold RoutesManager.getRoutesByName. unfold_method.
    unfold RoutesManager.getAllRoutes.
    rewrite (filterM_total _ g); [done|].
    intros route [routeName Hname]%Hnamed. unfold g. by rewrite Hname.
  - apply filter_sublist.
  - exact Hiff.
  - intros route Hin Hname. apply (Hiff route term Hname).
    split; [done|apply includes_refl].
  - intros Hterm. clear Hiff.
    induction (JsMap.values routes) as [|route l IH]; simpl; [done|].
    assert (g route = true) as ->.
    { destruct (Hnamed route) as [routeName Hname]; [left|].
      unfold g. rewrite Hname, Hterm. apply includes_empty. }
    f_equal. apply IH. intros r Hr. apply Hnamed. by right.
Qed.

Lemma X9_witness :
  RoutesManager.getRoutesByName (λ s, s) "Route 5"
    [(id Sample.route1, Sample.route1); (id Sample.overriding, Sample.overriding)]
  = (Normal [Sample.overriding],
     [(id Sample.route1, Sample.route1); (id Sample.overriding, Sample.overriding)]).
Proof.
  destruct (X9_getRoutesByName_finds_by_substring (λ s, s)
              [(id Sample.route1, Sample.route1);
               (id Sample.overriding, Sample.overriding)] "Route 5")
    as (found & Hrun & _).
  - intros route [->|[->|[]%elem_of_nil]%elem_of_cons]%elem_of_cons; by eexists.
  - rewrite Hrun. vm_compute in Hrun. by injection Hrun as <-.
Defined.

(** X10.  A stored route without a name breaks the search by name: as soon
    as one stored route has no name, [getRoutesByName] throws a
    [TypeError] for every search term, and leaves the registry as it is.
    Such a route is stored by [updateRoute(id, { name: undefined })],
    which completes normally on every stored id. *)
Theorem X10_getRoutesByName_throws_on_nameless_route :
  ∀ (toLowerCase : string → string) (routes : RoutesManager.Registry),
    (∀ route term,
       route ∈ JsMap.values routes → name route = None →
       ∃ message,
         RoutesManager.getRoutesByName toLowerCase term routes
         = (Throw (TypeError message), routes))
    ∧ (∀ i, keyed_and_validated routes → JsMap.has i routes = true →
         ∃ routes' stored,
           RoutesManager.updateRoute i
             {| u_name := Some None; u_coordinates := None; u_color := None;
                u_lineWidth := None; u_properties := None |} routes
           = (Normal tt, routes')
           ∧ JsMap.get i routes' = Some stored
           ∧ name stored = None).
Proof.
  intros toLowerCase routes. split.
  - intros route term Hin Hname. eexists.
    unfold RoutesManager.getRoutesByName. unfold_method.
    unfold RoutesManager.getAllRoutes. f_equal.
    apply filterM_throws.
    + intros a e'. by destruct (name a); intros [= <-].
    + apply Exists_exists. exists route. split; [done|]. by rewrite Hname.
  - intros i [Hnd Hkeyed] [existing Hget]%has_true_get.
    destruct (Hkeyed i existing (get_Some_elem_of _ _ _ Hget)) as [<- Hval].
    eexists _, _. split_and!.
    + apply (updateRoute_valid _ _ _ existing Hget).
      unfold RoutesManager.validateRoute in *. exact Hval.
    + apply get_set_eq.
    + done.
Qed.

Lemma X10_witness :
  ∃ message,
    (RoutesManager.getRoutesByName (λ s, s) "Route"
       (RoutesManager.updateRoute "route-1"
          {| u_name := Some None; u_coordinates := None; u_color := None;
             u_lineWidth := None; u_properties := None |}
          [(id Sample.route1, Sample.route1)]).2).1
    = Throw (TypeError message).
Proof.
  destruct (X10_getRoutesByName_throws_on_nameless_route (λ s, s)
              (RoutesManager.updateRoute "route-1"
                 {| u_name := Some None; u_coordinates := None; u_color := None;
                    u_lineWidth := None; u_properties := None |}
                 [(id Sample.route1, Sample.route1)]).2) as [Hthrow _].
  destruct (Hthrow _ "Route" (list_elem_of_here _ _) eq_refl) as [message Hrun].
  exists message. by rewrite Hrun.
Defined.

(** X11.  [getRoutesByColor] never throws and leaves the registry as it is;
    it returns, in the order of insertion, exactly the stored routes whose
    color, upper-cased, equals the upper-cased argument, where a route
    without a color, or with an empty one, counts as ['#FF0000'].  So the
    routes stored without a color are all found by ['#FF0000']. *)
Theorem X11_getRoutesByColor_matches_default_color :
  ∀ (toUpperCase : string → string) (routes : RoutesManager.Registry) (wanted : string),
    ∃ found,
      RoutesManager.getRoutesByColor toUpperCase wanted routes = (Normal found, routes)
      ∧ found `sublist_of` JsMap.values routes
      ∧ (∀ route c, color route = Some c → c ≠ "" →
           (route ∈ found
            ↔ route ∈ JsMap.values routes ∧ toUpperCase c = toUpperCase wanted))
      ∧ (∀ route, color route = None ∨ color route = Some "" →
           (route ∈ found
            ↔ route ∈ JsMap.values routes
              ∧ toUpperCase "#FF0000" = toUpperCase wanted))
      ∧ (wanted = "#FF0000" →
           ∀ route, route ∈ JsMap.values routes → color route = None →
                    route ∈ found).
Proof.
  intros toUpperCase routes wanted. eexists. split; [reflexivity|].
  split_and!.
  - apply filter_sublist.
  - intros route c Hc Hne%string_truthy_nonempty.
    rewrite elem_of_filter_iff, String.eqb_eq.
    unfold RoutesManager.colorOrDefault. by rewrite Hc, Hne.
  - intros route Hc. rewrite elem_of_filter_iff, String.eqb_eq.
    unfold RoutesManager.colorOrDefault. by destruct Hc as [-> | ->].
  - intros -> route Hin Hc. rewrite elem_of_filter_iff, String.eqb_eq.
    unfold RoutesManager.colorOrDefault. by rewrite Hc.
Qed.

(* ===================================================================== *)
(** * Further properties of the reprojection                              *)
(* ===================================================================== *)

Section Traversals.

Lemma mapM_throws {A B} (f : A → Completion B) (l : list A) :
  throws (mapM f l) ↔ Exists (λ a, throws (f a)) l.
Proof.
  induction l as [|a l IH]; simpl.
  - split; [by intros [? ?]|by intros ?%Exists_nil].
  - rewrite Exists_cons. destruct (f a) as [b|e] eqn:E; simpl.
    + rewrite <- IH. destruct (mapM f l) as [bs|e']; simpl.
      * split; [by intros [? ?]|]. intros [[? ?]|[? ?]]; done.
      * split; [intros _; right|]; by exists e'.
    + split; [intros _; left|]; by exists e.
Qed.

Lemma mapM_Normal {A B} (f : A → Completion B) (l : list A) (l' : list B) :
  mapM f l = Normal l' ↔ Forall2 (λ a b, f a = Normal b) l l'.
Proof.
  revert l'. induction l as [|a l IH]; intros l'; simpl.
  - split; [intros [= <-]; constructor|by intros ->%Forall2_nil_inv_l].
  - split.
    + destruct (f a) as [b|e] eqn:E; simpl; [|done].
      destruct (mapM f l) as [bs|e'] eqn:E'; simpl; [|done].
      intros [= <-]. constructor; [done|]. by apply IH.
    + intros (b & bs & Hb & Hbs & ->)%Forall2_cons_inv_l.
      rewrite Hb. simpl. apply IH in Hbs. by rewrite Hbs.
Qed.


End Traversals.

Section PointFacts.
Import GeoTransform.
Variable proj4 : number → number → Completion (number * number).
Variable numberToString : number → string.

Local Abbreviation transformPoint :=
  (transformCoordinates3347To4326 proj4 numberToString).

Lemma transformPoint_Normal (v out : JsValue) :
  transformPoint v = Normal out
  ↔ ∃ elements x y longitude latitude,
      v = JArr elements
      ∧ elements !! 0%nat = Some (JNum x)
      ∧ elements !! 1%nat = Some (JNum y)
      ∧ PrimFloat.is_nan x = false ∧ PrimFloat.is_nan y = false
      ∧ proj4 x y = Normal (longitude, latitude)
      ∧ PrimFloat.is_nan longitude = false ∧ PrimFloat.is_nan latitude = false
      ∧ out = JArr [JNum longitude; JNum latitude].
Proof.
  unfold transformCoordinates3347To4326, try_catch. split.
  - destruct v as [| | | |s|elements|]; simpl; try done.
    + destruct (String.list_ascii_of_string s) as [|c0 [|c1 cs]]; simpl; done.
    + destruct (elements !! 0%nat) as [[| | |x| | |]|] eqn:E0; simpl; try done;
        destruct (elements !! 1%nat) as [[| | |y| | |]|] eqn:E1; simpl; try done.
      destruct (PrimFloat.is_nan x) eqn:Ex; simpl; [done|].
      destruct (PrimFloat.is_nan y) eqn:Ey; simpl; [done|].
      destruct (proj4 x y) as [[longitude latitude]|e] eqn:Ep; simpl; [|done].
      destruct (PrimFloat.is_nan longitude) eqn:Elon; simpl; [done|].
      destruct (PrimFloat.is_nan latitude) eqn:Elat; simpl; [done|].
      intros [= <-]. by eexists _, _, _, _, _.
  - intros (elements & x & y & longitude & latitude
            & -> & E0 & E1 & Ex & Ey & Ep & Elon & Elat & ->).
    simpl. rewrite E0, E1. simpl. rewrite Ex, Ey. simpl. rewrite Ep. simpl.
    by rewrite Elon, Elat.
Qed.

Lemma transformPoint_nan (elements : list JsValue) (x y : number) :
  elements !! 0%nat = Some (JNum x) → elements !! 1%nat = Some (JNum y) →
  PrimFloat.is_nan x = true ∨ PrimFloat.is_nan y = true →
  throws (transformPoint (JArr elements)).
Proof.
  intros E0 E1 Hnan. unfold transformCoordinates3347To4326, try_catch. simpl.
  rewrite E0, E1. simpl.
  assert (PrimFloat.is_nan x || PrimFloat.is_nan y = true) as ->.
  { apply orb_true_iff. exact Hnan. }
  by eexists.
Qed.

Lemma transformPoint_proj4_throws (elements : list JsValue) (x y : number) e :
  elements !! 0%nat = Some (JNum x) → elements !! 1%nat = Some (JNum y) →
  PrimFloat.is_nan x = false → PrimFloat.is_nan y = false →
  proj4 x y = Throw e →
  transformPoint (JArr elements) = Throw e.
Proof.
  intros E0 E1 Ex Ey Ep. unfold transformCoordinates3347To4326, try_catch. simpl.
  rewrite E0, E1. simpl. rewrite Ex, Ey. simpl. by rewrite Ep.
Qed.

Lemma arrayMap_Normal (f : JsValue → Completion JsValue) (v out : JsValue) :
  arrayMap f v = Normal out
  ↔ ∃ l l', v = JArr l ∧ out = JArr l' ∧ Forall2 (λ a b, f a = Normal b) l l'.
Proof.
  split.
  - destruct v as [| | | | |l|]; simpl; try done.
    destruct (mapM f l) as [l'|e] eqn:E; simpl; [|done].
    intros [= <-]. exists l, l'. split_and!; try done. by apply mapM_Normal.
  - intros (l & l' & -> & -> & Hall%mapM_Normal). simpl. by rewrite Hall.
Qed.

Lemma arrayMap_throws (f : JsValue → Completion JsValue) (l : list JsValue) :
  throws (arrayMap f (JArr l)) ↔ Exists (λ a, throws (f a)) l.
Proof.
  rewrite <- mapM_throws. simpl. destruct (mapM f l) as [l'|e]; simpl.
  - split; by intros [? ?].
  - split; intros _; by eexists.
Qed.

End PointFacts.

(** X12.  [transformCoordinates3347To4326] returns exactly when its
    argument is an array whose first two entries are numbers other than
    NaN and the projection returns for them a pair of numbers other than
    NaN; what it returns is that pair and nothing else, so further entries
    of the input (an altitude) are dropped and the output never holds a
    NaN.  An error thrown by the projection is thrown on unchanged. *)
Theorem X12_transformCoordinates_returns_projected_pair :
  ∀ (proj4 : number → number → Completion (number * number))
    (numberToString : number → string) (coordinates : JsValue),
    (∀ out,
       GeoTransform.transformCoordinates3347To4326 proj4 numberToString coordinates
       = Normal out
       ↔ ∃ elements x y longitude latitude,
           coordinates = JArr elements
           ∧ elements !! 0%nat = Some (JNum x)
           ∧ elements !! 1%nat = Some (JNum y)
           ∧ PrimFloat.is_nan x = false ∧ PrimFloat.is_nan y = false
           ∧ proj4 x y = Normal (longitude, latitude)
           ∧ PrimFloat.is_nan longitude = false
           ∧ PrimFloat.is_nan latitude = false
           ∧ out = JArr [JNum longitude; JNum latitude])
    ∧ (∀ elements x y e,
         coordinates = JArr elements →
         elements !! 0%nat = Some (JNum x) → elements !! 1%nat = Some (JNum y) →
         PrimFloat.is_nan x = false → PrimFloat.is_nan y = false →
         proj4 x y = Throw e →
         GeoTransform.transformCoordinates3347To4326 proj4 numberToString coordinates
         = Throw e).
Proof.
  intros proj4 numberToString coordinates. split.
  - intros out. apply transformPoint_Normal.
  - intros elements x y e ->. apply transformPoint_proj4_throws.
Qed.

Lemma X12_witness :
  GeoTransform.transformCoordinates3347To4326 Sample.shift Sample.showNumber
    (JArr [JNum 1; JNum 2; JNum 300]) = Normal (Sample.point 2 3)
  ∧ GeoTransform.transformCoordinates3347To4326 Sample.shift Sample.showNumber
      (Sample.point (-1) 2) = Throw (Error "out of range").
Proof.
  destruct (X12_transformCoordinates_returns_projected_pair Sample.shift
              Sample.showNumber (JArr [JNum 1; JNum 2; JNum 300])) as [Hok _].
  destruct (X12_transformCoordinates_returns_projected_pair Sample.shift
              Sample.showNumber (Sample.point (-1) 2)) as [_ Hthrow].
  split.
  - apply Hok. eexists _, 1%float, 2%float, _, _. by split_and!.
  - by apply (Hthrow [JNum (-1); JNum 2] (-1)%float 2%float).
Defined.

(** X13.  [transformPolygonCoordinates] keeps the shape of a polygon: it
    returns exactly when its argument is an array of rings, each an array
    of points, and every point is transformed; the result has the same
    number of rings, each with the same number of points, and each point
    is the transform of the point at the same place. *)
Theorem X13_transformPolygonCoordinates_keeps_shape :
  ∀ (proj4 : number → number → Completion (number * number))
    (numberToString : number → string) (coordinates out : JsValue),
    GeoTransform.transformPolygonCoordinates proj4 numberToString coordinates
    = Normal out
    ↔ ∃ rings rings',
        coordinates = JArr rings ∧ out = JArr rings'
        ∧ Forall2
            (λ ring ring',
               ∃ points points',
                 ring = JArr points ∧ ring' = JArr points'
                 ∧ Forall2
                     (λ point point',
                        GeoTransform.transformCoordinates3347To4326 proj4
                          numberToString point = Normal point')
                     points points')
            rings rings'.
Proof.
  intros proj4 numberToString coordinates out.
  unfold GeoTransform.transformPolygonCoordinates. rewrite arrayMap_Normal.
  unfold GeoTransform.transformCoordinateArray.
  split; intros (rings & rings' & -> & -> & Hall); exists rings, rings';
    (split_and!; [done..|]);
    eapply Forall2_impl; [exact Hall| |exact Hall|];
    intros ring ring'; by rewrite arrayMap_Normal.
Qed.

Lemma X13_witness :
  GeoTransform.transformPolygonCoordinates Sample.shift Sample.showNumber
    (JArr [JArr [Sample.point 1 2; Sample.point 3 4]])
  = Normal (JArr [JArr [Sample.point 2 3; Sample.point 4 5]]).
Proof.
  apply X13_transformPolygonCoordinates_keeps_shape.
  eexists _, _. split_and!; [reflexivity..|].
  repeat constructor. eexists _, _. split_and!; [reflexivity..|].
  repeat constructor.
Defined.

(** X14.  One point that cannot be transformed costs the whole feature:
    when a Polygon feature has, in any of its rings, a point on which
    [transformCoordinates3347To4326] throws (a NaN, a missing number, a
    point the projection rejects), the transformation of its coordinates
    throws and the callback of [transformGeoJSON3347To4326] returns
    [null] for the feature. *)
Theorem X14_one_bad_point_drops_the_feature :
  ∀ (proj4 : number → number → Completion (number * number))
    (numberToString : number → string) (feature : Feature)
    (rings points : list JsValue) (point : JsValue),
    g_type (f_geometry feature) = "Polygon" →
    g_coordinates (f_geometry feature) = JArr rings →
    JArr points ∈ rings →
    point ∈ points →
    throws (GeoTransform.transformCoordinates3347To4326 proj4 numberToString point) →
    throws (GeoTransform.transformPolygonCoordinates proj4 numberToString
              (g_coordinates (f_geometry feature)))
    ∧ GeoTransform.transformFeature proj4 numberToString feature = Normal None.
Proof.
  intros proj4 numberToString feature rings points point Htag Hcoords Hring Hpoint Hbad.
  assert (throws (GeoTransform.transformPolygonCoordinates proj4 numberToString
                    (g_coordinates (f_geometry feature)))) as Hthrows.
  { rewrite Hcoords. unfold GeoTransform.transformPolygonCoordinates.
    apply arrayMap_throws, Exists_exists. exists (JArr points). split; [done|].
    unfold GeoTransform.transformCoordinateArray.
    apply arrayMap_throws, Exists_exists. by exists point. }
  split; [done|]. by apply transformFeature_dropped.
Qed.

Lemma X14_witness :
  GeoTransform.transformFeature Sample.shift Sample.showNumber
    (Sample.polygon "Polygon"
       (JArr [JArr [Sample.point 1 2; Sample.point nan 4; Sample.point 1 2]]))
  = Normal None.
Proof.
  refine (proj2 (X14_one_bad_point_drops_the_feature Sample.shift Sample.showNumber
                   (Sample.polygon "Polygon"
                      (JArr [JArr [Sample.point 1 2; Sample.point nan 4;
                                   Sample.point 1 2]]))
                   [JArr [Sample.point 1 2; Sample.point nan 4; Sample.point 1 2]]
                   [Sample.point 1 2; Sample.point nan 4; Sample.point 1 2]
                   (Sample.point nan 4) eq_refl eq_refl _ _ _)).
  - left.
  - right. left.
  - by eexists.
Defined.



(** X16.  [loadOttawaDABoundaries] fails on a well-formed answer whose
    first feature is a Polygon without rings: the response is ok and its
    body is a feature collection, but the read of [coordinates[0][0]] in
    the debugging block throws a [TypeError], and nothing is returned. *)
Theorem X16_loadOttawaDABoundaries_fails_on_empty_first_polygon :
  ∀ (proj4 : number → number → Completion (number * number))
    (numberToString : number → string)
    (fetch : string → Completion (Response FeatureCollection))
    (response : Response FeatureCollection) (geoJSON : FeatureCollection)
    (first : Feature) (rest : list Feature),
    fetch "/ottawa_da_boundaries.geojson" = Normal response →
    ok response = true →
    body response = Some geoJSON →
    fc_features geoJSON = first :: rest →
    g_type (f_geometry first) = "Polygon" →
    g_coordinates (f_geometry first) = JArr [] →
    ∃ message,
      GeoTransform.loadOttawaDABoundaries proj4 numberToString fetch
      = Throw (TypeError message).
Proof.
  intros proj4 numberToString fetch response geoJSON first rest
    Hfetch Hok Hbody Hfeatures Htag%String.eqb_eq Hcoords.
  unfold GeoTransform.loadOttawaDABoundaries, json.
  rewrite Hfetch. simpl. rewrite Hok, Hbody. simpl.
  unfold GeoTransform.peekFirstCoordinate.
  rewrite Hfeatures, Htag, Hcoords. simpl. by eexists.
Qed.

Lemma X16_witness :
  ∃ message,
    GeoTransform.loadOttawaDABoundaries Sample.shift Sample.showNumber
      (Sample.respond
         {| ok := true; statusText := "OK";
            body := Some {| fc_type := "FeatureCollection";
                            fc_features := [Sample.polygon "Polygon" (JArr [])];
                            fc_members := ∅ |} |})
    = Throw (TypeError message).
Proof.
  eapply (X16_loadOttawaDABoundaries_fails_on_empty_first_polygon
            Sample.shift Sample.showNumber _ _ _
            (Sample.polygon "Polygon" (JArr [])) []); reflexivity.
Defined.

(** X17.  [loadOttawaDABoundaries] returns nothing but the reprojection of
    the body of an ok response: whenever it returns [out], the request
    was answered, the response was ok, its body was JSON, and [out] is
    what [transformGeoJSON3347To4326] makes of that body.  When [fetch]
    rejects, it rejects with the same error; when the body is not JSON,
    with a [SyntaxError]. *)
Theorem X17_loadOttawaDABoundaries_returns_the_reprojected_body :
  ∀ (proj4 : number → number → Completion (number * number))
    (numberToString : number → string)
    (fetch : string → Completion (Response FeatureCollection)),
    (∀ out,
       GeoTransform.loadOttawaDABoundaries proj4 numberToString fetch = Normal out →
       ∃ response geoJSON,
         fetch "/ottawa_da_boundaries.geojson" = Normal response
         ∧ ok response = true
         ∧ body response = Some geoJSON
         ∧ GeoTransform.transformGeoJSON3347To4326 proj4 numberToString geoJSON
           = Normal out)
    ∧ (∀ e, fetch "/ottawa_da_boundaries.geojson" = Throw e →
         GeoTransform.loadOttawaDABoundaries proj4 numberToString fetch = Throw e)
    ∧ (∀ response, fetch "/ottawa_da_boundaries.geojson" = Normal response →
         ok response = true → body response = None →
         ∃ message,
           GeoTransform.loadOttawaDABoundaries proj4 numberToString fetch
           = Throw (SyntaxError message)).
Proof.
  intros proj4 numberToString fetch.
  unfold GeoTransform.loadOttawaDABoundaries, json. split_and!.
  - intros out.
    destruct (fetch "/ottawa_da_boundaries.geojson") as [response|e]; simpl; [|done].
    destruct (ok response) eqn:Hok; simpl; [|done].
    destruct (body response) as [geoJSON|] eqn:Hbody; simpl; [|done].
    destruct (GeoTransform.peekFirstCoordinate geoJSON) as [[]|e]; simpl; [|done].
    destruct (GeoTransform.transformGeoJSON3347To4326 proj4 numberToString geoJSON)
      as [transformed|e] eqn:Hrun; simpl; [|done].
    destruct (GeoTransform.peekFirstCoordinate transformed) as [[]|e]; simpl; [|done].
    intros [= <-]. by exists response, geoJSON.
  - by intros e ->.
  - intros response Hfetch Hok Hbody. rewrite Hfetch. simpl.
    rewrite Hok, Hbody. simpl. by eexists.
Qed.

Lemma X17_witness :
  GeoTransform.loadOttawaDABoundaries Sample.shift Sample.showNumber
    (λ _, Throw (TypeError "Failed to fetch"))
  = Throw (TypeError "Failed to fetch").
Proof.
  by apply (X17_loadOttawaDABoundaries_returns_the_reprojected_body
              Sample.shift Sample.showNumber).
Defined.

(* ===================================================================== *)
(** * Normalising and fetching route GeoJSON                              *)
(* ===================================================================== *)

Section NormalizeFacts.
Import GeoJsonUtils.

(** Writing a default under [key] unless the value there is truthy. *)
Local Abbreviation ensure key value props :=
  (if negb (toBoolean (default JUndefined (props !! key)))
   then <[key := value]> props else props).

Lemma ensure_idempotent (key : string) (value : JsValue) (props : gmap string JsValue) :
  ensure key value (ensure key value props) = ensure key value props.
Proof.
  destruct (toBoolean (default JUndefined (props !! key))) eqn:E; simpl.
  - by rewrite E.
  - rewrite lookup_insert_eq. simpl.
    destruct (toBoolean value); simpl; [done|]. by rewrite insert_insert_eq.
Qed.

Lemma ensure_commute (k1 k2 : string) (v1 v2 : JsValue) (props : gmap string JsValue) :
  k1 ≠ k2 →
  ensure k1 v1 (ensure k2 v2 props) = ensure k2 v2 (ensure k1 v1 props).
Proof.
  intros Hne.
  destruct (toBoolean (default JUndefined (props !! k1))) eqn:E1,
           (toBoolean (default JUndefined (props !! k2))) eqn:E2; simpl;
    rewrite ?lookup_insert_ne, ?E1, ?E2 by done; simpl; try done.
  by rewrite insert_insert_ne.
Qed.

Lemma ensure_lookup_ne (key other : string) (value : JsValue)
    (props : gmap string JsValue) :
  other ≠ key → ensure key value props !! other = props !! other.
Proof.
  intros Hne. destruct (toBoolean (default JUndefined (props !! key))); simpl;
    [done|]. by rewrite lookup_insert_ne.
Qed.

Lemma ensure_lookup_eq (key : string) (value : JsValue) (props : gmap string JsValue) :
  ensure key value props !! key
  = if toBoolean (default JUndefined (props !! key)) then props !! key
    else Some value.
Proof.
  destruct (toBoolean (default JUndefined (props !! key))); simpl; [done|].
  by rewrite lookup_insert_eq.
Qed.

Lemma normalizeFeature_properties (defaultColor : string) (defaultLineWidth : number)
    (feature : Feature) :
  f_properties (normalizeFeature defaultColor defaultLineWidth feature)
  = Some (ensure "lineWidth" (JNum defaultLineWidth)
            (ensure "color" (JStr defaultColor)
               (default ∅ (f_properties feature)))).
Proof. reflexivity. Qed.

Lemma normalizeFeature_idempotent (defaultColor : string) (defaultLineWidth : number)
    (feature : Feature) :
  normalizeFeature defaultColor defaultLineWidth
    (normalizeFeature defaultColor defaultLineWidth feature)
  = normalizeFeature defaultColor defaultLineWidth feature.
Proof.
  set (once := normalizeFeature defaultColor defaultLineWidth feature).
  assert (∀ f g, f_type f = f_type g → f_geometry f = f_geometry g →
                 f_properties f = f_properties g → f_members f = f_members g →
                 f = g) as Hext.
  { intros [] []; simpl; congruence. }
  apply Hext; try done.
  rewrite !normalizeFeature_properties. unfold once.
  rewrite normalizeFeature_properties.
  change (default ∅ (Some ?m)) with m. f_equal.
  set (p0 := default ∅ (f_properties feature)).
  rewrite (ensure_commute "color" "lineWidth") by done.
  rewrite (ensure_idempotent "lineWidth" (JNum defaultLineWidth)).
  by rewrite (ensure_idempotent "color" (JStr defaultColor)).
Qed.

Lemma normalizeFeature_spec (defaultColor : string) (defaultLineWidth : number)
    (feature : Feature) :
  ∃ props',
    f_properties (normalizeFeature defaultColor defaultLineWidth feature) = Some props'
    ∧ (∀ key, key ≠ "color" → key ≠ "lineWidth" →
              props' !! key = default ∅ (f_properties feature) !! key)
    ∧ props' !! "color"
      = (if toBoolean (default JUndefined
                         (default ∅ (f_properties feature) !! "color"))
         then default ∅ (f_properties feature) !! "color"
         else Some (JStr defaultColor))
    ∧ props' !! "lineWidth"
      = (if toBoolean (default JUndefined
                         (default ∅ (f_properties feature) !! "lineWidth"))
         then default ∅ (f_properties feature) !! "lineWidth"
         else Some (JNum defaultLineWidth)).
Proof.
  eexists. split; [apply normalizeFeature_properties|].
  set (p0 := default ∅ (f_properties feature)). split_and!.
  - intros key Hc Hw. by rewrite !ensure_lookup_ne.
  - rewrite ensure_lookup_ne by done. apply ensure_lookup_eq.
  - rewrite ensure_lookup_eq. by rewrite !ensure_lookup_ne.
Qed.

End NormalizeFacts.

(** X18.  Normalising is idempotent: normalising a normalised collection
    with the same defaults gives the same collection. *)
Theorem X18_normalizeGeoJSON_idempotent :
  ∀ (geoJSON : FeatureCollection) (defaultColor : option string)
    (defaultLineWidth : option number),
    GeoJsonUtils.normalizeGeoJSON
      (GeoJsonUtils.normalizeGeoJSON geoJSON defaultColor defaultLineWidth)
      defaultColor defaultLineWidth
    = GeoJsonUtils.normalizeGeoJSON geoJSON defaultColor defaultLineWidth.
Proof.
  intros geoJSON defaultColor defaultLineWidth.
  unfold GeoJsonUtils.normalizeGeoJSON. simpl. f_equal.
  rewrite <- list_fmap_compose. apply list_fmap_ext.
  intros n feature _. apply normalizeFeature_idempotent.
Qed.

(** X19.  [normalizeGeoJSON] returns a collection of type
    ['FeatureCollection'] without further members, with one feature per
    input feature, in order.  Each keeps its type, geometry and other
    members and gets a properties object (an empty one stands in for
    [null]) in which every key other than [color] and [lineWidth] is as it
    was, a truthy [color] or [lineWidth] is as it was, and any other
    [color] or [lineWidth] is replaced by the default.  With the default
    arguments every feature of the result has a truthy [color] and a
    truthy [lineWidth]. *)
Theorem X19_normalizeGeoJSON_fills_in_defaults :
  ∀ (geoJSON : FeatureCollection) (defaultColor : option string)
    (defaultLineWidth : option number),
    let out := GeoJsonUtils.normalizeGeoJSON geoJSON defaultColor defaultLineWidth in
    fc_type out = "FeatureCollection"
    ∧ fc_members out = ∅
    ∧ List.length (fc_features out) = List.length (fc_features geoJSON)
    ∧ ∀ (n : nat) feature,
        fc_features geoJSON !! n = Some feature →
        ∃ feature' props',
          fc_features out !! n = Some feature'
          ∧ f_type feature' = f_type feature
          ∧ f_geometry feature' = f_geometry feature
          ∧ f_members feature' = f_members feature
          ∧ f_properties feature' = Some props'
          ∧ (∀ key, key ≠ "color" → key ≠ "lineWidth" →
                    props' !! key = default ∅ (f_properties feature) !! key)
          ∧ props' !! "color"
            = (if toBoolean (default JUndefined
                               (default ∅ (f_properties feature) !! "color"))
               then default ∅ (f_properties feature) !! "color"
               else Some (JStr (default "#FF0000" defaultColor)))
          ∧ props' !! "lineWidth"
            = (if toBoolean (default JUndefined
                               (default ∅ (f_properties feature) !! "lineWidth"))
               then default ∅ (f_properties feature) !! "lineWidth"
               else Some (JNum (default 4%float defaultLineWidth)))
          ∧ (defaultColor = None →
               toBoolean (default JUndefined (props' !! "color")) = true)
          ∧ (defaultLineWidth = None →
               toBoolean (default JUndefined (props' !! "lineWidth")) = true).
Proof.
  intros geoJSON defaultColor defaultLineWidth out. subst out.
  unfold GeoJsonUtils.normalizeGeoJSON. simpl. split_and!; try done.
  - by rewrite length_fmap.
  - intros n feature Hn.
    destruct (normalizeFeature_spec (default "#FF0000" defaultColor)
                (default 4%float defaultLineWidth) feature)
      as (props' & Hprops & Hother & Hcolor & Hwidth).
    exists (GeoJsonUtils.normalizeFeature (default "#FF0000" defaultColor)
              (default 4%float defaultLineWidth) feature), props'.
    split_and!; try done.
    + by rewrite list_lookup_fmap, Hn.
    + intros ->. rewrite Hcolor.
      by destruct (toBoolean (default JUndefined
                                (default ∅ (f_properties feature) !! "color"))) eqn:E.
    + intros ->. rewrite Hwidth.
      by destruct (toBoolean (default JUndefined
                                (default ∅ (f_properties feature) !! "lineWidth")))
        eqn:E.
Qed.

(** X20.  [fetchGeoJSON] returns nothing but the normalised body of an ok
    response that is a feature collection: whenever it returns [out], the
    request was answered, the response was ok, its body was JSON of type
    ['FeatureCollection'], and [out] is that body normalised with the
    given defaults.  A body of another type is refused with the error
    ['Invalid GeoJSON: Expected FeatureCollection'], and a rejection of
    [fetch] is passed on unchanged. *)
Theorem X20_fetchGeoJSON_returns_the_normalised_body :
  ∀ (fetch : string → Completion (Response FeatureCollection)) (url : string)
    (defaultColor : option string) (defaultLineWidth : option number),
    (∀ out,
       GeoJsonUtils.fetchGeoJSON fetch url defaultColor defaultLineWidth = Normal out
       ↔ ∃ response geoJSON,
           fetch url = Normal response
           ∧ ok response = true
           ∧ body response = Some geoJSON
           ∧ fc_type geoJSON = "FeatureCollection"
           ∧ out = GeoJsonUtils.normalizeGeoJSON geoJSON defaultColor
                     defaultLineWidth)
    ∧ (∀ response geoJSON,
         fetch url = Normal response → ok response = true →
         body response = Some geoJSON →
         fc_type geoJSON ≠ "FeatureCollection" →
         GeoJsonUtils.fetchGeoJSON fetch url defaultColor defaultLineWidth
         = Throw (Error "Invalid GeoJSON: Expected FeatureCollection"))
    ∧ (∀ e, fetch url = Throw e →
         GeoJsonUtils.fetchGeoJSON fetch url defaultColor defaultLineWidth = Throw e).
Proof.
  intros fetch url defaultColor defaultLineWidth.
  unfold GeoJsonUtils.fetchGeoJSON, json. split_and!.
  - intros out. split.
    + destruct (fetch url) as [response|e]; simpl; [|done].
      destruct (ok response) eqn:Hok; simpl; [|done].
      destruct (body response) as [geoJSON|] eqn:Hbody; simpl; [|done].
      destruct (String.eqb_spec (fc_type geoJSON) "FeatureCollection") as [Htype|Htype];
        simpl; [|done].
      intros [= <-]. by exists response, geoJSON.
    + intros (response & geoJSON & -> & Hok & Hbody & Htype%String.eqb_eq & ->).
      simpl. rewrite Hok, Hbody. simpl. by rewrite Htype.
  - intros response geoJSON -> Hok Hbody Htype%String.eqb_neq.
    simpl. rewrite Hok, Hbody. simpl. by rewrite Htype.
  - by intros e ->.
Qed.

Lemma X20_witness :
  GeoJsonUtils.fetchGeoJSON (Sample.respond Sample.found) "/api/routes" None None
  = Normal (GeoJsonUtils.normalizeGeoJSON Sample.boundaries None None).
Proof.
  apply X20_fetchGeoJSON_returns_the_normalised_body.
  by exists Sample.found, Sample.boundaries.
Defined.

(* ===================================================================== *)
(** * The handle of the map component                                     *)
(* ===================================================================== *)

Section HandleFacts.
Import MapView.

(** The data of the ['routes'] source, when there is a map with one. *)
Local Abbreviation routesData c := (mapRef c ≫= routesSource).

Lemma routeFeature_agree (route : Route) :
  MapView.routeFeature route = RoutesManager.routeFeature route.
Proof. reflexivity. Qed.

Lemma setRoutes_clear_add (routes : list Route) (c : Component) :
  setRoutes routes c = addRoutes routes (clearRoutes c).
Proof.
  destruct c as [[[[shown|] loaded listeners]|] ready pending]; done.
Qed.

Lemma setRoutes_overwrites (first second : list Route) (c : Component) :
  setRoutes second (setRoutes first c) = setRoutes second c.
Proof.
  destruct c as [[[[shown|] loaded listeners]|] ready pending]; done.
Qed.

Lemma addRoutes_app (first second : list Route) (c : Component) :
  addRoutes (first ++ second) c = addRoutes second (addRoutes first c).
Proof.
  destruct c as [[[[shown|] loaded listeners]|] ready pending]; try done.
  unfold addRoutes. simpl. by rewrite fmap_app, (assoc_L (++)).
Qed.

End HandleFacts.

(** X21.  On the map, [setRoutes(routes)] does what [clearRoutes()]
    followed by [addRoutes(routes)] does, and a second [setRoutes]
    overwrites the first: only the routes given last are shown. *)
Theorem X21_setRoutes_is_clear_then_add :
  ∀ (first routes : list Route) (c : MapView.Component),
    MapView.setRoutes routes c = MapView.addRoutes routes (MapView.clearRoutes c)
    ∧ MapView.setRoutes routes (MapView.setRoutes first c)
      = MapView.setRoutes routes c.
Proof.
  intros first routes c. split; [apply setRoutes_clear_add|apply setRoutes_overwrites].
Qed.

(** X22.  On a map with the routes source, [addRoutes] keeps the features
    shown and appends one feature per route, in order; adding two batches
    one after the other is adding their concatenation; and without a map,
    or before the source exists, [addRoutes] changes nothing. *)
Theorem X22_addRoutes_appends_features :
  ∀ (first second : list Route) (c : MapView.Component),
    MapView.addRoutes (first ++ second) c
    = MapView.addRoutes second (MapView.addRoutes first c)
    ∧ (∀ map shown,
         MapView.mapRef c = Some map → MapView.routesSource map = Some shown →
         ∃ map' shown',
           MapView.mapRef (MapView.addRoutes first c) = Some map'
           ∧ MapView.routesSource map' = Some shown'
           ∧ fc_features shown'
             = (fc_features shown ++ (MapView.routeFeature <$> first))%list)
    ∧ (MapView.mapRef c ≫= MapView.routesSource = None →
         MapView.addRoutes first c = c).
Proof.
  intros first second c. split_and!.
  - apply addRoutes_app.
  - intros map shown Hmap Hsource. unfold MapView.addRoutes.
    rewrite Hmap, Hsource. by eexists _, _.
  - unfold MapView.addRoutes.
    destruct (MapView.mapRef c) as [map|]; simpl; [|done].
    by destruct (MapView.routesSource map).
Qed.

Lemma X22_witness :
  ∃ map' shown',
    MapView.mapRef (MapView.addRoutes [Sample.route1; Sample.onePoint]
                      Sample.readyMap) = Some map'
    ∧ MapView.routesSource map' = Some shown'
    ∧ fc_features shown'
      = [MapView.routeFeature Sample.route1; MapView.routeFeature Sample.onePoint].
Proof.
  destruct (X22_addRoutes_appends_features [Sample.route1; Sample.onePoint] []
              Sample.readyMap) as (_ & Happend & _).
  destruct (Happend _ _ eq_refl eq_refl) as (map' & shown' & Hmap & Hsource & Hfeatures).
  by exists map', shown'.
Defined.

(** X23.  The two ways of showing the registry agree: on a map with the
    routes source, [setRoutes(manager.getAllRoutes())] puts on the source
    exactly the collection [manager.toGeoJSON()] returns, which is also
    what [updateRoutes(manager.toGeoJSON())] puts there at once when the
    map is marked ready. *)
Theorem X23_setRoutes_agrees_with_toGeoJSON :
  ∀ (routes : RoutesManager.Registry) (c : MapView.Component)
    (map : MapView.MlMap) (shown : FeatureCollection),
    MapView.mapRef c = Some map →
    MapView.routesSource map = Some shown →
    ∃ listed geoJSON,
      RoutesManager.getAllRoutes routes = (Normal listed, routes)
      ∧ RoutesManager.toGeoJSON routes = (Normal geoJSON, routes)
      ∧ MapView.mapRef (MapView.setRoutes listed c) ≫= MapView.routesSource
        = Some geoJSON
      ∧ (MapView.isMapReady c = true →
           MapView.updateRoutes geoJSON c = MapView.setRoutes listed c).
Proof.
  intros routes c map shown Hmap Hsource.
  eexists _, _. split; [reflexivity|]. split; [reflexivity|].
  unfold MapView.setRoutes, MapView.updateRoutes, MapView.tryUpdate.
  rewrite Hmap, Hsource. simpl. split; [done|]. by intros ->.
Qed.

Lemma X23_witness :
  MapView.mapRef (MapView.setRoutes [Sample.route1] Sample.readyMap)
    ≫= MapView.routesSource
  = Some {| fc_type := "FeatureCollection";
            fc_features := [RoutesManager.routeFeature Sample.route1];
            fc_members := ∅ |}.
Proof.
  destruct (X23_setRoutes_agrees_with_toGeoJSON
              [(id Sample.route1, Sample.route1)] Sample.readyMap _ _
              eq_refl eq_refl) as (listed & geoJSON & Hlisted & Hrun & Hshown & _).
  injection Hlisted as <-. injection Hrun as <-. exact Hshown.
Defined.

(** X24.  [updateRoutes] writes the data at once exactly when the map is
    marked ready and has the routes source.  In every other case with a
    map it leaves the data of the source as it is and defers exactly one
    callback: a 50 ms retry when the map is ready but the source is
    missing, a one-time ['load'] listener when the style is not loaded,
    and a 100 ms retry otherwise, even when the source is there already.
    Without a map it does nothing.  A retry that runs on a map with the
    source writes the collection it was created for. *)
Theorem X24_updateRoutes_applies_or_defers :
  ∀ (geoJSON : FeatureCollection) (c : MapView.Component),
    (MapView.mapRef c = None → MapView.updateRoutes geoJSON c = c)
    ∧ (∀ map,
         MapView.mapRef c = Some map →
         let c' := MapView.updateRoutes geoJSON c in
         (MapView.isMapReady c = true → is_Some (MapView.routesSource map) →
            c' = MapView.withMap (MapView.setData geoJSON map) c)
         ∧ (MapView.isMapReady c = true → MapView.routesSource map = None →
              c' = MapView.setTimeout (MapView.TryUpdate geoJSON) 50 c)
         ∧ (MapView.isMapReady c = false → MapView.styleLoaded map = false →
              c' = MapView.withMap
                     (MapView.onceLoad (MapView.DeferTryUpdate geoJSON) map) c)
         ∧ (MapView.isMapReady c = false → MapView.styleLoaded map = true →
              c' = MapView.setTimeout (MapView.TryUpdateElseListen geoJSON) 100 c)
         ∧ (¬ (MapView.isMapReady c = true ∧ is_Some (MapView.routesSource map)) →
              MapView.mapRef c' ≫= MapView.routesSource = MapView.routesSource map
              ∧ List.length (MapView.timers c')
                + List.length (default [] (MapView.loadListeners <$> MapView.mapRef c'))
                = S (List.length (MapView.timers c)
                     + List.length (MapView.loadListeners map))))
    ∧ (∀ map task,
         MapView.mapRef c = Some map → is_Some (MapView.routesSource map) →
         task = MapView.TryUpdate geoJSON
         ∨ task = MapView.TryUpdateElseListen geoJSON →
         MapView.runTask task c
         = MapView.withMap (MapView.setData geoJSON map) c).
Proof.
  intros geoJSON c. split_and!.
  - unfold MapView.updateRoutes. by intros ->.
  - intros map Hmap c'. subst c'.
    unfold MapView.updateRoutes, MapView.tryUpdate. rewrite Hmap.
    split_and!.
    + intros -> [shown Hsource]. by rewrite Hsource.
    + intros -> Hsource. by rewrite Hsource.
    + intros -> Hloaded. by rewrite Hloaded.
    + intros -> Hloaded. by rewrite Hloaded.
    + destruct (MapView.isMapReady c) eqn:Hready; simpl.
      * destruct (MapView.routesSource map) as [shown|] eqn:Hsource; simpl.
        -- intros []. split; [done|by eexists].
        -- intros _. rewrite Hmap. simpl. rewrite Hsource.
           split; [done|]. rewrite length_app. simpl. lia.
      * intros _. destruct (MapView.styleLoaded map); simpl.
        -- rewrite Hmap. simpl. split; [done|]. rewrite length_app. simpl. lia.
        -- split; [done|]. rewrite length_app. simpl. lia.
  - intros map task Hmap [shown Hsource] [-> | ->];
      unfold MapView.runTask, MapView.tryUpdate; by rewrite Hmap, Hsource.
Qed.

Lemma X24_witness :
  MapView.updateRoutes Sample.boundaries Sample.loadingMap
  = MapView.withMap
      (MapView.onceLoad (MapView.DeferTryUpdate Sample.boundaries)
         {| MapView.routesSource := None; MapView.styleLoaded := false;
            MapView.loadListeners := [] |})
      Sample.loadingMap.
Proof.
  destruct (X24_updateRoutes_applies_or_defers Sample.boundaries Sample.loadingMap)
    as (_ & Hmap & _).
  destruct (Hmap _ eq_refl) as (_ & _ & Hlisten & _).
  exact (Hlisten eq_refl eq_refl).
Defined.

(* ===================================================================== *)
(** * The hook                                                            *)
(* ===================================================================== *)

Section HookFacts.
Import UseRoutes.

Lemma mutate_syncs_on_success {A} (method : RoutesManager.Method A) (h : Hook) :
  syncs_on_success method (mutate method) h.
Proof.
  unfold syncs_on_success, mutate, syncRoutesToMap.
  destruct (method (manager h)) as [[a|e] routes]; simpl; [|done].
  destruct (handle h); simpl; [done|]. by rewrite app_nil_r.
Qed.

Lemma on_ready_map_frame (h h' : Hook) :
  handle h' = handle h → on_ready_map h → on_ready_map h'.
Proof. unfold on_ready_map. by intros ->. Qed.

Lemma attemptSync_ready (h : Hook) :
  on_ready_map h →
  ∃ h',
    attemptSync h = (Normal tt, h')
    ∧ manager h' = manager h
    ∧ syncTimers h' = syncTimers h
    ∧ on_ready_map h'
    ∧ shown_on_map h'
      = Some {| fc_type := "FeatureCollection";
                fc_features :=
                  RoutesManager.routeFeature <$> JsMap.values (manager h);
                fc_members := ∅ |}.
Proof.
  intros (c & map & shown & Hhandle & Hmap & Hready & Hsource).
  unfold attemptSync, shown_on_map, on_ready_map. rewrite Hhandle. simpl.
  unfold MapView.updateRoutes, MapView.tryUpdate. rewrite Hmap, Hready, Hsource.
  eexists. split_and!; try done. simpl. by eexists _, _, _.
Qed.

End HookFacts.

(** X25.  The callbacks of the hook sync the map only after a mutation that
    succeeded.  Each of [addRoute], [addRoutes], [updateRoute],
    [removeRoute], [removeRoutes] and [clearAllRoutes] leaves the registry
    as the method of the registry leaves it; when the method throws, the
    error reaches the caller and no sync timer is started, so after an
    [addRoutes] that failed midway the registry holds the routes before the
    offending one while no sync of the map is pending on their account;
    when the method completes, one 100 ms timer is started if the map
    component is mounted. *)
Theorem X25_hook_syncs_only_after_success :
  ∀ h : UseRoutes.Hook,
    (∀ route,
       syncs_on_success (RoutesManager.addRoute route) (UseRoutes.addRoute route) h)
    ∧ (∀ batch,
         syncs_on_success (RoutesManager.addRoutes batch) (UseRoutes.addRoutes batch) h)
    ∧ (∀ i updates,
         syncs_on_success (RoutesManager.updateRoute i updates)
           (UseRoutes.updateRoute i updates) h)
    ∧ (∀ i, syncs_on_success (RoutesManager.removeRoute i) (UseRoutes.removeRoute i) h)
    ∧ (∀ ids,
         syncs_on_success (RoutesManager.removeRoutes ids) (UseRoutes.removeRoutes ids) h)
    ∧ syncs_on_success RoutesManager.clearAll UseRoutes.clearAllRoutes h.
Proof. intros h. split_and!; intros; apply mutate_syncs_on_success. Qed.

Lemma X25_witness :
  UseRoutes.addRoutes [Sample.route1; Sample.onePoint] Sample.mountedHook
  = (Throw (Error "Route must have at least 2 coordinates"),
     {| UseRoutes.manager := [(id Sample.route1, Sample.route1)];
        UseRoutes.handle := Some Sample.readyMap;
        UseRoutes.syncTimers := [] |}).
Proof.
  destruct (X25_hook_syncs_only_after_success Sample.mountedHook)
    as (_ & Hbatch & _).
  destruct (Hbatch [Sample.route1; Sample.onePoint]) as (Hmanager & Hhandle & Hrun).
  destruct (UseRoutes.addRoutes [Sample.route1; Sample.onePoint] Sample.mountedHook)
    as [completion [routes map pending]].
  simpl in *. destruct Hrun as [-> ->]. by rewrite Hmanager, Hhandle.
Defined.

(** X26.  What a sync shows.  When its timer fires on a map that is marked
    ready and has the routes source, [attemptSync] puts on the map the
    features of the routes stored at that moment, in order of insertion,
    and changes neither the registry nor the timers; when the map
    component is not mounted it does nothing.  So after an [addRoute] of
    the hook that completed, the sync shows the routes stored before
    followed by the new route. *)
Theorem X26_sync_shows_the_registry :
  ∀ h : UseRoutes.Hook,
    (UseRoutes.handle h = None → UseRoutes.attemptSync h = (Normal tt, h))
    ∧ (on_ready_map h →
         ∃ h',
           UseRoutes.attemptSync h = (Normal tt, h')
           ∧ UseRoutes.manager h' = UseRoutes.manager h
           ∧ UseRoutes.syncTimers h' = UseRoutes.syncTimers h
           ∧ shown_on_map h'
             = Some {| fc_type := "FeatureCollection";
                       fc_features :=
                         RoutesManager.routeFeature
                           <$> JsMap.values (UseRoutes.manager h);
                       fc_members := ∅ |})
    ∧ (on_ready_map h →
         ∀ route h1,
           UseRoutes.addRoute route h = (Normal tt, h1) →
           ∃ h2 shown,
             UseRoutes.attemptSync h1 = (Normal tt, h2)
             ∧ shown_on_map h2 = Some shown
             ∧ fc_features shown
               = (RoutesManager.routeFeature
                    <$> (JsMap.values (UseRoutes.manager h) ++ [route]))%list).
Proof.
  intros h. split_and!.
  - unfold UseRoutes.attemptSync. by intros ->.
  - intros Hready. destruct (attemptSync_ready h Hready)
      as (h' & Hrun & Hmanager & Htimers & _ & Hshown).
    by exists h'.
  - intros Hready route h1 Hadd.
    pose proof (mutate_syncs_on_success (RoutesManager.addRoute route) h)
      as (Hmanager & Hhandle & Houtcome).
    fold (UseRoutes.addRoute route) in Hmanager, Hhandle, Houtcome.
    rewrite Hadd in Hmanager, Hhandle, Houtcome. simpl in *.
    destruct (RoutesManager.addRoute route (UseRoutes.manager h))
      as [[[]|e] routes] eqn:Hrun; simpl in *; [|by destruct Houtcome].
    apply addRoute_Normal_inv in Hrun as (_ & _ & _ & ->).
    destruct (attemptSync_ready h1) as (h2 & Hsync & _ & _ & _ & Hshown).
    { by apply (on_ready_map_frame h). }
    eexists h2, _. split_and!; [done|exact Hshown|]. simpl.
    rewrite Hmanager. unfold JsMap.values. by rewrite fmap_app.
Qed.

Lemma X26_witness :
  ∃ h1 h2 shown,
    UseRoutes.addRoute Sample.route1 Sample.mountedHook = (Normal tt, h1)
    ∧ UseRoutes.attemptSync h1 = (Normal tt, h2)
    ∧ shown_on_map h2 = Some shown
    ∧ fc_features shown = [RoutesManager.routeFeature Sample.route1].
Proof.
  assert (on_ready_map Sample.mountedHook) as Hready.
  { by eexists _, _, _. }
  destruct (X26_sync_shows_the_registry Sample.mountedHook) as (_ & _ & Hadd).
  destruct (Hadd Hready Sample.route1 _ eq_refl) as (h2 & shown & Hsync & Hshown & Hfeatures).
  by eexists _, h2, shown.
Defined.



(** X28.  [loadGeoJSONFromURL] rejects exactly when [fetchGeoJSON] does,
    with the same error, and then touches nothing.  Once the collection is
    fetched, the rest of the function never throws and leaves the registry
    and the sync timers as they are; when the map component is mounted it
    hands the collection to the map and resolves to it, and when the
    component is not mounted the fetched collection is dropped and the
    function resolves to [undefined]. *)
Theorem X28_loadGeoJSONFromURL_drops_data_without_map :
  ∀ (fetch : string → Completion (Response FeatureCollection)) (url : string)
    (defaultColor : option string) (defaultLineWidth : option number),
    (∀ e,
       UseRoutes.loadGeoJSONFromURL fetch url defaultColor defaultLineWidth = Throw e
       ↔ GeoJsonUtils.fetchGeoJSON fetch url
           (Some (default "#FF0000" defaultColor))
           (Some (default 4%float defaultLineWidth)) = Throw e)
    ∧ (∀ resume,
         UseRoutes.loadGeoJSONFromURL fetch url defaultColor defaultLineWidth
         = Normal resume →
         ∃ geoJSON,
           GeoJsonUtils.fetchGeoJSON fetch url
             (Some (default "#FF0000" defaultColor))
             (Some (default 4%float defaultLineWidth)) = Normal geoJSON
           ∧ ∀ h,
               UseRoutes.manager (resume h).2 = UseRoutes.manager h
               ∧ UseRoutes.syncTimers (resume h).2 = UseRoutes.syncTimers h
               ∧ (UseRoutes.handle h = None → resume h = (Normal None, h))
               ∧ (∀ c, UseRoutes.handle h = Some c →
                    (resume h).1 = Normal (Some geoJSON)
                    ∧ UseRoutes.handle (resume h).2
                      = Some (MapView.updateRoutes geoJSON c))).
Proof.
  intros fetch url defaultColor defaultLineWidth.
  unfold UseRoutes.loadGeoJSONFromURL.
  destruct (GeoJsonUtils.fetchGeoJSON fetch url
              (Some (default "#FF0000" defaultColor))
              (Some (default 4%float defaultLineWidth))) as [geoJSON|e0]; simpl.
  - split; [intros e; split; intros [=]|]. intros resume [= <-]. exists geoJSON.
    split; [done|].
    intros h. destruct (UseRoutes.handle h) as [c|] eqn:Hhandle; simpl.
    + split_and!; try done. by intros c' [= <-].
    + by split_and!.
  - split; [intros e; split; by intros [= ->]|]. intros resume [=].
Qed.

Lemma X28_witness :
  ∃ resume,
    UseRoutes.loadGeoJSONFromURL (Sample.respond Sample.found) "/api/routes"
      None None = Normal resume
    ∧ resume {| UseRoutes.manager := []; UseRoutes.handle := None;
                UseRoutes.syncTimers := [] |}
      = (Normal None,
         {| UseRoutes.manager := []; UseRoutes.handle := None;
            UseRoutes.syncTimers := [] |}).
Proof.
  destruct (UseRoutes.loadGeoJSONFromURL (Sample.respond Sample.found) "/api/routes"
              None None) as [resume|e] eqn:Hrun.
  - exists resume. split; [done|].
    destruct (X28_loadGeoJSONFromURL_drops_data_without_map
                (Sample.respond Sample.found) "/api/routes" None None)
      as [_ Hresume].
    rewrite Hrun in Hresume.
    destruct (Hresume resume eq_refl) as (geoJSON & _ & Hh).
    destruct (Hh {| UseRoutes.manager := []; UseRoutes.handle := None;
                    UseRoutes.syncTimers := [] |}) as (_ & _ & Hnone & _).
    exact (Hnone eq_refl).
  - vm_compute in Hrun. discriminate Hrun.
Defined.
